(** * The streaming SSZ decoder of [decoder.go]

    A shallow embedding of the [Decoder] of the ssz package: the offset
    bookkeeping ([decodeOffset], [retrieveSize]), the head operations that
    read a field or an offset, the tail operations that the decoder queues
    as closures, and the drain of that queue ([dynamicDone]).

    Conventions.
    - A [uint32] is a [Z]; every subtraction the source does on [uint32] is
      written with its wrap-around ([u32]).
    - The [io.Reader] is an in-memory reader: the list of bytes still unread.
    - A Go slice is a backing array together with a length ([slice]); the
      capacity is the length of the backing array.
    - The decoder's scalar targets ([*uint64], [[]byte], ...) are passed in
      and returned; the targets captured by queued closures live in a heap
      and are named by addresses.
    - A run-time panic of the source is the result [Panic]. *)

From stdpp Require Import gmap list sorting.
From Stdlib Require Import ZArith Lia Strings.Byte.

Open Scope Z_scope.

(** ** Results: a value, or a Go run-time panic *)

Inductive panic :=
  | IndexOutOfRange
  | SliceBoundsOutOfRange
  | NilDereference
  | DivideByZero.

Inductive res (A : Type) :=
  | Ok (a : A)
  | Panic (p : panic)
  | OutOfFuel.
Arguments Ok {A} a.
Arguments Panic {A} p.
Arguments OutOfFuel {A}.

Definition bind {A B} (m : res A) (k : A -> res B) : res B :=
  match m with
  | Ok a => k a
  | Panic p => Panic p
  | OutOfFuel => OutOfFuel
  end.

Notation "'let*' x ':=' m 'in' k" := (bind m (fun x => k))
  (at level 10, x pattern, m at level 100, k at level 200).

(** [l[i]] with Go's bounds check. *)
Definition index {A} (l : list A) (i : nat) : res A :=
  match l !! i with
  | Some x => Ok x
  | None => Panic IndexOutOfRange
  end.

(** ** Machine integers and bytes *)

Definition u32 (z : Z) : Z := z mod 2 ^ 32.

Definition byte_Z (b : byte) : Z := Z.of_N (Byte.to_N b).

Definition at_ (b : list byte) (i : nat) : Z := byte_Z (nth i b x00).

(** [binary.LittleEndian.Uint32] and [Uint64]. *)
Definition Uint32 (b : list byte) : Z :=
  Z.lor (at_ b 0)
    (Z.lor (Z.shiftl (at_ b 1) 8)
       (Z.lor (Z.shiftl (at_ b 2) 16) (Z.shiftl (at_ b 3) 24))).

Definition Uint64 (b : list byte) : Z :=
  Z.lor (at_ b 0)
    (Z.lor (Z.shiftl (at_ b 1) 8)
       (Z.lor (Z.shiftl (at_ b 2) 16)
          (Z.lor (Z.shiftl (at_ b 3) 24)
             (Z.lor (Z.shiftl (at_ b 4) 32)
                (Z.lor (Z.shiftl (at_ b 5) 40)
                   (Z.lor (Z.shiftl (at_ b 6) 48) (Z.shiftl (at_ b 7) 56))))))).

(** ** Errors

    Modelled from the spec: the error sentinels ([ErrOffsetBeyondCapacity]
    and the others) are declared outside [decoder.go]; they are the error
    kinds of the spec's taxonomy, under the names [decoder.go] uses.
    [fmt.Errorf("%w: ...", sentinel, args...)] is the sentinel with the
    numbers it was formatted with. *)

Inductive sentinel :=
  | EOF
  | ErrUnexpectedEOF
  | ErrOffsetBeyondCapacity
  | ErrFirstOffsetMismatch
  | ErrBadOffsetProgression
  | ErrBadCounterOffset
  | ErrShortCounterOffset
  | ErrDynamicStaticsIndivisible
  | ErrMaxItemsExceeded
  | ErrMaxLengthExceeded
  | ErrDynamicObjectInStaticSlot.

Record error := Errorf { wrapped : sentinel; args : list Z }.

(** [errors.Is(e, s)] on an optional error. *)
Definition fails_with (e : option error) (s : sentinel) : Prop :=
  exists a, e = Some (Errorf s a).

(** ** The reader

    [io.ReadFull(r, p)] on an in-memory reader [r]: fills [p] with the next
    [len(p)] bytes; when fewer are left it copies what is left and fails
    with [EOF] (nothing read) or [ErrUnexpectedEOF]. Returns the buffer, the
    rest of the input and the error. *)
Definition ReadFull (r p : list byte) : list byte * list byte * option error :=
  let n := List.length p in
  let got := take n r in
  (got ++ drop (List.length got) p,
   drop n r,
   if (List.length got =? n)%nat then None
   else if (List.length got =? 0)%nat then Some (Errorf EOF [])
   else Some (Errorf ErrUnexpectedEOF [])).

(** ** Slices *)

Record slice (A : Type) := Slice { arr : list A; len : nat }.
Arguments Slice {A} arr len.
Arguments arr {A} s.
Arguments len {A} s.

Definition cap {A} (s : slice A) : nat := List.length (arr s).

(** The elements a slice shows: [s[0:len(s)]]. *)
Definition elems {A} (s : slice A) : list A := take (len s) (arr s).

(** Writing the visible elements back in place. *)
Definition with_elems {A} (s : slice A) (l : list A) : slice A :=
  Slice (l ++ drop (len s) (arr s)) (len s).

(** [make([]T, n)] *)
Definition make {A} (zero : A) (n : Z) : slice A :=
  Slice (replicate (Z.to_nat n) zero) (Z.to_nat n).

(** [s[:n]] *)
Definition reslice {A} (s : slice A) (n : Z) : res (slice A) :=
  if (Z.to_nat n <=? cap s)%nat then Ok (Slice (arr s) (Z.to_nat n))
  else Panic SliceBoundsOutOfRange.

(** The idiom of every tail operation:
    grow to a fresh [make([]T, n)] when the capacity, converted to
    [uint32], is below [n]; otherwise reslice to [[:n]]. *)
Definition expand {A} (zero : A) (s : slice A) (n : Z) : res (slice A) :=
  if u32 (Z.of_nat (cap s)) <? n then Ok (make zero n) else reslice s n.

(** ** Addresses and queued closures *)

Definition loc := positive.

(** A [*[]byte]: the address of a byte-slice variable, or of an element of
    a [[][]byte] variable. *)
Inductive blob_ptr :=
  | BlobVar (l : loc)
  | BlobElem (l : loc) (i : nat).

(** The closures appended to [dec.pend], one constructor per closure
    expression of [decoder.go]. [PendFirstBlob] is the closure of
    [decodeSliceOfDynamicBytes] whose argument, the address of element 0
    of the slice, is evaluated when the closure runs. *)
Inductive action :=
  | PendDynamicBytes (blob : blob_ptr) (maxSize : Z)
  | PendFirstBlob (blobs : loc) (maxSize : Z)
  | PendSliceOfStaticBytes (bytes : loc) (itemSize maxItems : Z)
  | PendSliceOfDynamicBytes (blobs : loc) (maxItems maxSize : Z)
  | PendSliceOfStaticObjects (objects : loc) (maxItems : Z).

(** ** The decoder *)

Record Decoder := mkDecoder {
  in_ : list byte;                    (* in: the bytes still unread *)
  err : option error;
  dyn : bool;
  buf : list byte;                    (* [32]byte *)
  length : Z;
  lengths : list Z;
  offset : Z;
  offsets : option (list Z);          (* None is the nil slice *)
  offsetss : list (option (list Z));
  pend : list action;
  pends : list (list action)
}.

Definition set_in (x : list byte) (d : Decoder) : Decoder :=
  mkDecoder x (err d) (dyn d) (buf d) (length d) (lengths d) (offset d)
    (offsets d) (offsetss d) (pend d) (pends d).
Definition set_err (x : option error) (d : Decoder) : Decoder :=
  mkDecoder (in_ d) x (dyn d) (buf d) (length d) (lengths d) (offset d)
    (offsets d) (offsetss d) (pend d) (pends d).
Definition set_dyn (x : bool) (d : Decoder) : Decoder :=
  mkDecoder (in_ d) (err d) x (buf d) (length d) (lengths d) (offset d)
    (offsets d) (offsetss d) (pend d) (pends d).
Definition set_buf (x : list byte) (d : Decoder) : Decoder :=
  mkDecoder (in_ d) (err d) (dyn d) x (length d) (lengths d) (offset d)
    (offsets d) (offsetss d) (pend d) (pends d).
Definition set_length (x : Z) (d : Decoder) : Decoder :=
  mkDecoder (in_ d) (err d) (dyn d) (buf d) x (lengths d) (offset d)
    (offsets d) (offsetss d) (pend d) (pends d).
Definition set_lengths (x : list Z) (d : Decoder) : Decoder :=
  mkDecoder (in_ d) (err d) (dyn d) (buf d) (length d) x (offset d)
    (offsets d) (offsetss d) (pend d) (pends d).
Definition set_offset (x : Z) (d : Decoder) : Decoder :=
  mkDecoder (in_ d) (err d) (dyn d) (buf d) (length d) (lengths d) x
    (offsets d) (offsetss d) (pend d) (pends d).
Definition set_offsets (x : option (list Z)) (d : Decoder) : Decoder :=
  mkDecoder (in_ d) (err d) (dyn d) (buf d) (length d) (lengths d) (offset d)
    x (offsetss d) (pend d) (pends d).
Definition set_offsetss (x : list (option (list Z))) (d : Decoder) : Decoder :=
  mkDecoder (in_ d) (err d) (dyn d) (buf d) (length d) (lengths d) (offset d)
    (offsets d) x (pend d) (pends d).
Definition set_pend (x : list action) (d : Decoder) : Decoder :=
  mkDecoder (in_ d) (err d) (dyn d) (buf d) (length d) (lengths d) (offset d)
    (offsets d) (offsetss d) x (pends d).
Definition set_pends (x : list (list action)) (d : Decoder) : Decoder :=
  mkDecoder (in_ d) (err d) (dyn d) (buf d) (length d) (lengths d) (offset d)
    (offsets d) (offsetss d) (pend d) x.

(** [dec.err != nil] *)
Definition latched (d : Decoder) : bool :=
  match err d with Some _ => true | None => false end.

(** [len(s)] and [append(s, x)] on a possibly nil [[]uint32]. *)
Definition elements (s : option (list Z)) : list Z := default [] s.
Definition is_nil (s : option (list Z)) : bool :=
  match s with None => true | Some _ => false end.
Definition append (s : option (list Z)) (x : Z) : option (list Z) :=
  Some (elements s ++ [x]).

(** [io.ReadFull(dec.in, dec.buf[:k])] *)
Definition readBuf (k : nat) (d : Decoder) : Decoder * option error :=
  let '(p, r, e) := ReadFull (in_ d) (take k (buf d)) in
  (set_buf (p ++ drop k (buf d)) (set_in r d), e).

(** [OffsetDynamics]: the returned closure is [dynamicDone]. *)
Definition OffsetDynamics (offset0 : Z) (d : Decoder) : Decoder :=
  let d := set_dyn true d in
  let d := set_offsetss (offsetss d ++ [offsets d]) d in
  let d := set_offsets None d in
  let d := set_offset (u32 offset0) d in
  let d := set_pends (pends d ++ [pend d]) d in
  set_pend [] d.

(** [decodeOffset] *)
Definition decodeOffset (list : bool) (d : Decoder) : Decoder * option error :=
  let '(d, e) := readBuf 4 d in
  match e with
  | Some e => (d, Some e)
  | None =>
    let decoded := Uint32 (take 4 (buf d)) in
    if length d <? decoded then
      (d, Some (Errorf ErrOffsetBeyondCapacity [decoded; length d]))
    else if is_nil (offsets d) && negb list && negb (offset d =? decoded) then
      (d, Some (Errorf ErrFirstOffsetMismatch [decoded; offset d]))
    else if negb (is_nil (offsets d)) && (decoded <? offset d) then
      (d, Some (Errorf ErrBadOffsetProgression [decoded; offset d]))
    else
      (set_offsets (append (offsets d) decoded) (set_offset decoded d), None)
  end.

(** [retrieveSize] *)
Definition retrieveSize (d : Decoder) : res (Z * Decoder) :=
  let offs := elements (offsets d) in
  let* size :=
    if (1 <? List.length offs)%nat then
      let* o1 := index offs 1 in
      let* o0 := index offs 0 in
      Ok (u32 (o1 - o0))
    else
      let* o0 := index offs 0 in
      Ok (u32 (length d - o0)) in
  Ok (size, set_offsets (Some (drop 1 offs)) d).

(** [descendIntoDynamic] *)
Definition descendIntoDynamic (length0 : Z) (d : Decoder) : Decoder :=
  let d := set_lengths (lengths d ++ [length d]) d in
  let d := set_length length0 d in
  OffsetDynamics 0 d.

(** ** Head operations

    The target of a head operation is passed in and returned. *)

(** [DecodeUint64] *)
Definition DecodeUint64 (d : Decoder) (n : Z) : Decoder * Z :=
  if latched d then (d, n)
  else
    let '(d, e) := readBuf 8 d in
    (set_err e d, Uint64 (take 8 (buf d))).

(** [uint256.Int] is four little-endian [uint64] limbs; [UnmarshalSSZ] is
    the method of the uint256 library that [DecodeUint256] calls. *)
Definition UnmarshalSSZ (b : list byte) : list Z :=
  [Uint64 (take 8 b); Uint64 (take 8 (drop 8 b));
   Uint64 (take 8 (drop 16 b)); Uint64 (take 8 (drop 24 b))].

(** [DecodeUint256]: a nil target is allocated, then overwritten. *)
Definition DecodeUint256 (d : Decoder) (n : option (list Z))
  : Decoder * option (list Z) :=
  if latched d then (d, n)
  else
    let '(d, e) := readBuf 32 d in
    (set_err e d, Some (UnmarshalSSZ (take 32 (buf d)))).

(** [DecodeStaticBytes] *)
Definition DecodeStaticBytes (d : Decoder) (bytes : list byte)
  : Decoder * list byte :=
  if latched d then (d, bytes)
  else
    let '(p, r, e) := ReadFull (in_ d) bytes in
    (set_err e (set_in r d), p).

(** The loop [for i := 0; i < len(bytes); i++ { DecodeStaticBytes(dec, bytes[i][:]) }]. *)
Fixpoint decodeEach (d : Decoder) (bytes : list (list byte))
  : Decoder * list (list byte) :=
  match bytes with
  | [] => (d, [])
  | b :: rest =>
    let '(d, b) := DecodeStaticBytes d b in
    let '(d, rest) := decodeEach d rest in
    (d, b :: rest)
  end.

(** [DecodeArrayOfStaticBytes] *)
Definition DecodeArrayOfStaticBytes (d : Decoder) (bytes : list (list byte))
  : Decoder * list (list byte) :=
  if latched d then (d, bytes) else decodeEach d bytes.

(** The shape shared by the four offset declarations: read and validate the
    offset, latch its error, and queue the closure when there is none. *)
Definition offsetThenQueue (a : action) (d : Decoder) : Decoder :=
  let '(d, e) := decodeOffset false d in
  let d := set_err e d in
  if latched d then d else set_pend (pend d ++ [a]) d.

(** [DecodeDynamicBytes] *)
Definition DecodeDynamicBytes (d : Decoder) (blob : blob_ptr) (maxSize : Z)
  : Decoder :=
  if latched d then d
  else offsetThenQueue (PendDynamicBytes blob maxSize) d.

(** [DecodeSliceOfStaticBytes]; [itemSize] is the length of the array type
    [T] the source is instantiated with. *)
Definition DecodeSliceOfStaticBytes (d : Decoder) (bytes : loc)
    (itemSize maxItems : Z) : Decoder :=
  if latched d then d
  else offsetThenQueue (PendSliceOfStaticBytes bytes itemSize maxItems) d.

(** [DecodeSliceOfDynamicBytes] *)
Definition DecodeSliceOfDynamicBytes (d : Decoder) (blobs : loc)
    (maxItems maxSize : Z) : Decoder :=
  if latched d then d
  else offsetThenQueue (PendSliceOfDynamicBytes blobs maxItems maxSize) d.

(** ** Static objects

    The constraint [newableObject[U]] of the source: a static record with
    its size, its zero value ([new(U)]) and its decoding method. *)
Class newableObject (U : Type) := {
  StaticSSZ : bool;
  SizeSSZ : Z;
  new : U;
  DecodeSSZ : U -> Decoder -> res (U * Decoder)
}.

(** The [Withdrawal] record of the test types. *)
Record Withdrawal := mkWithdrawal {
  Index : Z;
  Validator : Z;
  Address : list byte;                (* [20]byte *)
  Amount : Z
}.

#[export] Instance Withdrawal_object : newableObject Withdrawal := {|
  StaticSSZ := true;
  SizeSSZ := 44;
  new := mkWithdrawal 0 0 (replicate 20 x00) 0;
  DecodeSSZ w d :=
    let '(d, index) := DecodeUint64 d (Index w) in
    let '(d, validator) := DecodeUint64 d (Validator w) in
    let '(d, address) := DecodeStaticBytes d (Address w) in
    let '(d, amount) := DecodeUint64 d (Amount w) in
    Ok (mkWithdrawal index validator address amount, d)
|}.

Section decoder.
Context {U : Type} `{!newableObject U}.

(** [DecodeSliceOfStaticObjects] *)
Definition DecodeSliceOfStaticObjects (d : Decoder) (objects : loc)
    (maxItems : Z) : Decoder :=
  if latched d then d
  else if negb StaticSSZ then
    set_err (Some (Errorf ErrDynamicObjectInStaticSlot [])) d
  else offsetThenQueue (PendSliceOfStaticObjects objects maxItems) d.

(** ** The heap of closure targets

    Every element of a slice of objects owns its object ([None] is the nil
    pointer). An address that is not in the heap, or that holds a value of
    another type, is a nil pointer. *)
Inductive value :=
  | VBlob (b : slice byte)
  | VBlobs (bs : slice (slice byte))
  | VStaticBytes (bs : slice (list byte))
  | VObjects (os : slice (option U)).

Record state := State { dec : Decoder; heap : gmap loc value }.

Definition load_blob (p : blob_ptr) (h : gmap loc value) : res (slice byte) :=
  match p with
  | BlobVar l =>
    match h !! l with Some (VBlob b) => Ok b | _ => Panic NilDereference end
  | BlobElem l i =>
    match h !! l with
    | Some (VBlobs bs) => index (arr bs) i
    | _ => Panic NilDereference
    end
  end.

Definition store_blob (p : blob_ptr) (b : slice byte) (h : gmap loc value)
  : res (gmap loc value) :=
  match p with
  | BlobVar l =>
    match h !! l with
    | Some (VBlob _) => Ok (<[l := VBlob b]> h)
    | _ => Panic NilDereference
    end
  | BlobElem l i =>
    match h !! l with
    | Some (VBlobs bs) =>
      let* _ := index (arr bs) i in
      Ok (<[l := VBlobs (Slice (<[i := b]> (arr bs)) (len bs))]> h)
    | _ => Panic NilDereference
    end
  end.

Definition load_blobs (l : loc) (h : gmap loc value) : res (slice (slice byte)) :=
  match h !! l with Some (VBlobs bs) => Ok bs | _ => Panic NilDereference end.

Definition load_static (l : loc) (h : gmap loc value) : res (slice (list byte)) :=
  match h !! l with Some (VStaticBytes bs) => Ok bs | _ => Panic NilDereference end.

Definition load_objects (l : loc) (h : gmap loc value) : res (slice (option U)) :=
  match h !! l with Some (VObjects os) => Ok os | _ => Panic NilDereference end.

(** ** Tail operations *)

(** [decodeDynamicBytes] *)
Definition decodeDynamicBytes (blob : blob_ptr) (maxSize : Z) (s : state)
  : res state :=
  if latched (dec s) then Ok s
  else
    let* (size, d) := retrieveSize (dec s) in
    if maxSize <? size then
      Ok (State (set_err (Some (Errorf ErrMaxLengthExceeded [size; maxSize])) d)
            (heap s))
    else
      let* b := load_blob blob (heap s) in
      let* b := expand x00 b size in
      let '(d, bytes) := DecodeStaticBytes d (elems b) in
      let* h := store_blob blob (with_elems b bytes) (heap s) in
      Ok (State d h).

(** [decodeSliceOfStaticBytes] *)
Definition decodeSliceOfStaticBytes (bytes : loc) (itemSize maxItems : Z)
    (s : state) : res state :=
  if latched (dec s) then Ok s
  else
    let* (size, d) := retrieveSize (dec s) in
    if size =? 0 then Ok (State d (heap s))
    else if itemSize =? 0 then Panic DivideByZero
    else if negb (size mod itemSize =? 0) then
      Ok (State
            (set_err (Some (Errorf ErrDynamicStaticsIndivisible [size; itemSize])) d)
            (heap s))
    else
      let itemCount := size / itemSize in
      if maxItems <? itemCount then
        Ok (State (set_err (Some (Errorf ErrMaxItemsExceeded [itemCount; maxItems])) d)
              (heap s))
      else
        let* bs := load_static bytes (heap s) in
        let* bs := expand (replicate (Z.to_nat itemSize) x00) bs itemCount in
        let '(d, items) := decodeEach d (elems bs) in
        Ok (State d (<[bytes := VStaticBytes (with_elems bs items)]> (heap s))).

(** The loop of [decodeSliceOfStaticObjects]: allocate the element when it
    is nil, then decode into it. *)
Fixpoint decodeObjects (d : Decoder) (objects : list (option U))
  : res (Decoder * list (option U)) :=
  match objects with
  | [] => Ok (d, [])
  | o :: rest =>
    let* (u, d) := DecodeSSZ (default new o) d in
    let* (d, rest) := decodeObjects d rest in
    Ok (d, Some u :: rest)
  end.

(** [decodeSliceOfStaticObjects] *)
Definition decodeSliceOfStaticObjects (objects : loc) (maxItems : Z)
    (s : state) : res state :=
  if latched (dec s) then Ok s
  else
    let* (size, d) := retrieveSize (dec s) in
    if size =? 0 then Ok (State d (heap s))
    else
      let itemSize := SizeSSZ in
      if itemSize =? 0 then Panic DivideByZero
      else if negb (size mod itemSize =? 0) then
        Ok (State
              (set_err (Some (Errorf ErrDynamicStaticsIndivisible [size; itemSize])) d)
              (heap s))
      else
        let itemCount := size / itemSize in
        if maxItems <? itemCount then
          Ok (State (set_err (Some (Errorf ErrMaxItemsExceeded [itemCount; maxItems])) d)
                (heap s))
        else
          let* os := load_objects objects (heap s) in
          let* os := expand None os itemCount in
          let* (d, items) := decodeObjects d (elems os) in
          Ok (State d (<[objects := VObjects (with_elems os items)]> (heap s))).

(** ** Draining the queue *)

(** [for _, pend := range dec.pend { pend() }] *)
Fixpoint runAll (run : action -> state -> res state) (q : list action)
    (s : state) : res state :=
  match q with
  | [] => Ok s
  | a :: q =>
    let* s := run a s in
    runAll run q s
  end.

(** [dynamicDone]; [run] calls a queued closure. *)
Definition dynamicDone (run : action -> state -> res state) (s : state)
  : res state :=
  let* s := runAll run (pend (dec s)) s in
  let d := dec s in
  let* top := index (pends d) (List.length (pends d) - 1) in
  let d := set_pend top d in
  let d := set_pends (take (List.length (pends d) - 1) (pends d)) d in
  let* top := index (offsetss d) (List.length (offsetss d) - 1) in
  let d := set_offsets top d in
  let d := set_offsetss (take (List.length (offsetss d) - 1) (offsetss d)) d in
  Ok (State d (heap s)).

(** [ascendFromDynamic] *)
Definition ascendFromDynamic (run : action -> state -> res state) (s : state)
  : res state :=
  let* s := dynamicDone run s in
  let d := dec s in
  let* top := index (lengths d) (List.length (lengths d) - 1) in
  let d := set_length top d in
  let d := set_lengths (take (List.length (lengths d) - 1) (lengths d)) d in
  Ok (State d (heap s)).

(** The part of [decodeSliceOfDynamicBytes] between the [defer] and the
    return: the counter offset, the resizing of the slice and the queueing
    of one closure per item. *)
Definition decodeCounterAndQueue (blobs : loc) (maxItems maxSize : Z)
    (s : state) : res state :=
  let '(d, e) := decodeOffset true (dec s) in
  match e with
  | Some e => Ok (State (set_err (Some e) d) (heap s))
  | None =>
    if negb (offset d mod 4 =? 0) then
      Ok (State (set_err (Some (Errorf ErrBadCounterOffset (elements (offsets d)))) d)
            (heap s))
    else
      let items := Z.shiftr (offset d) 2 in
      if maxItems <? items then
        Ok (State (set_err (Some (Errorf ErrMaxItemsExceeded [items; maxItems])) d)
              (heap s))
      else
        let* bs := load_blobs blobs (heap s) in
        let* bs := expand (Slice [] 0) bs items in
        let h := <[blobs := VBlobs bs]> (heap s) in
        let d := set_pend (pend d ++ [PendFirstBlob blobs maxSize]) d in
        let d := foldl (fun d i => DecodeDynamicBytes d (BlobElem blobs i) maxSize)
                   d (seq 1 (Z.to_nat items - 1)) in
        Ok (State d h)
  end.

(** [decodeSliceOfDynamicBytes]; the deferred [ascendFromDynamic] runs on
    every return after the [defer] statement. *)
Definition decodeSliceOfDynamicBytes (run : action -> state -> res state)
    (blobs : loc) (maxItems maxSize : Z) (s : state) : res state :=
  if latched (dec s) then Ok s
  else
    let* (size, d) := retrieveSize (dec s) in
    if size =? 0 then Ok (State d (heap s))
    else if size <? 4 then
      Ok (State (set_err (Some (Errorf ErrShortCounterOffset [size])) d) (heap s))
    else
      let d := descendIntoDynamic size d in
      let* s := decodeCounterAndQueue blobs maxItems maxSize (State d (heap s)) in
      ascendFromDynamic run s.

(** Calling a queued closure. A closure queued inside a slice of blobs is
    called by the drain of that slice, one level down: [fuel] bounds the
    nesting of drains. *)
Fixpoint call (fuel : nat) (a : action) (s : state) : res state :=
  match fuel with
  | O => OutOfFuel
  | S fuel =>
    match a with
    | PendDynamicBytes blob maxSize => decodeDynamicBytes blob maxSize s
    | PendFirstBlob blobs maxSize =>
      let* bs := load_blobs blobs (heap s) in
      if (0 <? len bs)%nat then decodeDynamicBytes (BlobElem blobs 0) maxSize s
      else Panic IndexOutOfRange
    | PendSliceOfStaticBytes bytes itemSize maxItems =>
      decodeSliceOfStaticBytes bytes itemSize maxItems s
    | PendSliceOfDynamicBytes blobs maxItems maxSize =>
      decodeSliceOfDynamicBytes (call fuel) blobs maxItems maxSize s
    | PendSliceOfStaticObjects objects maxItems =>
      decodeSliceOfStaticObjects objects maxItems s
    end
  end.

(** The slice at [blobs] has [n] elements, within its capacity. *)
Definition slice_inv (blobs : loc) (n : nat) (h : gmap loc value) : Prop :=
  exists b, h !! blobs = Some (VBlobs b) /\ len b = n /\ (n <= cap b)%nat.

End decoder.

(** ** Invariants of the drain of a slice of blobs

    Inside the region of a slice of blobs every queued closure decodes one
    element of that slice, and, unless an error is latched, every closure
    still has its offset in the queue. *)

Definition blob_closure (blobs : loc) (n : nat) (maxSize : Z) (a : action)
  : Prop :=
  a = PendFirstBlob blobs maxSize \/
  exists i, (i < n)%nat /\ a = PendDynamicBytes (BlobElem blobs i) maxSize.

Definition queue_inv (blobs : loc) (n : nat) (maxSize : Z)
    (ls : list Z) (ps : list (list action)) (os : list (option (list Z)))
    (q : list action) (d : Decoder) : Prop :=
  Forall (blob_closure blobs n maxSize) q /\
  (latched d = false ->
   (List.length q <= List.length (elements (offsets d)))%nat) /\
  lengths d = ls /\ pends d = ps /\ offsetss d = os.

(** ** The validations of [decodeOffset] as an invariant

    [validated d]: [d] is in the head of a container. It is reached from
    the start of the container (a nil queue of offsets and a [uint32]
    container length) by offsets that [decodeOffset] accepted and by
    operations that leave the length, the last offset and the queue alone
    (the reads of static fields). *)
Inductive validated : Decoder -> Prop :=
  | validated_enter d :
      offsets d = None -> 0 <= length d < 2 ^ 32 -> validated d
  | validated_read d list d' :
      validated d -> decodeOffset list d = (d', None) -> validated d'
  | validated_frame d d' :
      validated d -> length d' = length d -> offset d' = offset d ->
      offsets d' = offsets d -> validated d'.

(** [draining d]: [d] is in the tail of a container. It is reached from a
    validated head by sizes that [retrieveSize] popped and by operations
    that leave the container length and the queue alone (the reads of the
    regions, nested regions included: they restore both when they return). *)
Inductive draining : Decoder -> Prop :=
  | draining_start d : validated d -> draining d
  | draining_pop d size d' :
      draining d -> retrieveSize d = Ok (size, d') -> draining d'
  | draining_frame d d' :
      draining d -> length d' = length d -> offsets d' = offsets d ->
      draining d'.

(** What the validations give in the head: a non-nil queue is sorted and
    lies between zero and the last offset read, which is at most the
    container length. *)
Definition offsets_valid (d : Decoder) : Prop :=
  0 <= length d < 2 ^ 32 /\
  forall l, offsets d = Some l ->
    0 <= offset d <= length d /\
    Forall (fun o => 0 <= o <= offset d) l /\
    StronglySorted Z.le l.

(** What is left of it in the tail. *)
Definition queue_valid (d : Decoder) : Prop :=
  0 <= length d < 2 ^ 32 /\
  forall l, offsets d = Some l ->
    Forall (fun o => 0 <= o <= length d) l /\ StronglySorted Z.le l.

(** The length [retrieveSize] computes, without the wrap-around. *)
Definition region_length (d : Decoder) (o0 : Z) (rest : list Z) : Z :=
  match rest with
  | o1 :: _ => o1 - o0
  | [] => length d - o0
  end.

(** A decoder at the start of a message of [n] bytes. *)
Definition fresh (r : list byte) (n : Z) : Decoder :=
  mkDecoder r None false (replicate 32 x00) n [] 0 None [] [] [].

(** ** Concrete decoders and states

    Small messages on which the statements below are evaluated. *)

(** The head of a container of 12 bytes whose head size is 8: two offset
    slots, the first holding [first] and the second [second], then four
    bytes of tail. *)
Definition two_slots (first second : byte) : Decoder :=
  OffsetDynamics 8
    (fresh [first; x00; x00; x00; second; x00; x00; x00; x61; x62; x63; x64] 12).

(** The same head once its first offset is read. *)
Definition second_slot (first second : byte) : Decoder :=
  (decodeOffset false (two_slots first second)).1.

(** And once both are read: the tail is next. *)
Definition tail_next (first second : byte) : Decoder :=
  (decodeOffset false (second_slot first second)).1.

(** A container of 8 bytes with head size 4 whose first offset is 100. *)
Definition offset_100 : Decoder :=
  OffsetDynamics 4 (fresh [x64; x00; x00; x00; x61; x62; x63; x64] 8).

(** A container whose only field is a slice of blobs, stored at address 1,
    with at most 16 items of at most 16 bytes: the head (the offset 4) is
    read and the closure is queued; [region] is the tail. *)
Definition slice_of_blobs (region : list byte) : @state Withdrawal :=
  State
    (DecodeSliceOfDynamicBytes
       (OffsetDynamics 4
          (fresh ([x04; x00; x00; x00] ++ region)
             (4 + Z.of_nat (List.length region))))
       1%positive 16 16)
    {[ 1%positive := VBlobs (Slice [] 0) ]}.

(** A container whose only field is a byte string stored at address 1; the
    field is not empty before the decoding. *)
Definition one_blob (region : list byte) : @state Withdrawal :=
  State
    (DecodeDynamicBytes
       (OffsetDynamics 4
          (fresh ([x04; x00; x00; x00] ++ region)
             (4 + Z.of_nat (List.length region))))
       (BlobVar 1%positive) 16)
    {[ 1%positive := VBlob (Slice [x7a; x7a; x7a] 3) ]}.

(** A decoder with a latched error and input left. *)
Definition halted : Decoder :=
  set_err (Some (Errorf ErrUnexpectedEOF [])) (two_slots x08 x0a).

(** The coordination state of [d'] is that of [d]: only the input, the
    conversion buffer and the error may differ. *)
Definition same_coordination (d d' : Decoder) : Prop :=
  dyn d' = dyn d /\ length d' = length d /\ lengths d' = lengths d /\
  offset d' = offset d /\ offsets d' = offsets d /\
  offsetss d' = offsetss d /\ pend d' = pend d /\ pends d' = pends d.

(** The two outcomes of an offset declaration that queues the closure [a]:
    the error is latched and nothing is queued, or the offset (at most the
    container length) joins the queue of offsets and [a] the queue of
    closures. Either way four bytes of input are gone and the length and
    the stacks are as they were. *)
Definition queued_or_latched (d : Decoder) (a : action) (d' : Decoder) : Prop :=
  in_ d' = drop 4 (in_ d) /\ length d' = length d /\
  lengths d' = lengths d /\ offsetss d' = offsetss d /\ pends d' = pends d /\
  (err d' <> None /\ pend d' = pend d /\ offsets d' = offsets d /\
   offset d' = offset d \/
   err d' = None /\ pend d' = pend d ++ [a] /\
   offsets d' = Some (elements (offsets d) ++ [offset d']) /\
   0 <= offset d' <= length d).

(** The coordination state of [d'] is the one [d] stands for: the
    container length, the queues and the stacks (the last offset apart,
    which the decoder does not restore). *)
Definition restored (d d' : Decoder) : Prop :=
  length d' = length d /\ lengths d' = lengths d /\
  offsets d' = offsets d /\ offsetss d' = offsetss d /\
  pend d' = pend d /\ pends d' = pends d.

(** ** A container of byte strings

    The decoding method of a container whose fields are byte strings, as
    the comment of [DecodeDynamicBytes] prescribes it: [OffsetDynamics]
    with the head size (four bytes per field), its deferred [dynamicDone],
    and one [DecodeDynamicBytes] per field, each with the address of its
    target and its cap. *)
Definition decodeByteStrings {U : Type} `{!newableObject U} (fuel : nat)
    (fields : list (loc * Z)) (s : @state U) : res (@state U) :=
  let d := OffsetDynamics (4 * Z.of_nat (List.length fields)) (dec s) in
  let d := foldl (fun d f => DecodeDynamicBytes d (BlobVar f.1) f.2) d fields in
  dynamicDone (call (S fuel)) (State d (heap s)).

(** The offsets of the payloads [ps] laid out one after the other from
    [start]. *)
Fixpoint running_offsets (start : Z) (ps : list (list byte)) : list Z :=
  match ps with
  | [] => []
  | p :: ps => start :: running_offsets (start + Z.of_nat (List.length p)) ps
  end.

(** A head slot of four bytes that [Uint32] reads as [o]. *)
Definition slot_of (slot : list byte) (o : Z) : Prop :=
  List.length slot = 4%nat /\ Uint32 slot = o.

(** A container whose only field is a slice of two-byte arrays, stored at
    address 1, with at most 16 items: the head is read and the closure is
    queued; [region] is the tail. *)
Definition slice_of_pairs (region : list byte) : @state Withdrawal :=
  State
    (DecodeSliceOfStaticBytes
       (OffsetDynamics 4
          (fresh ([x04; x00; x00; x00] ++ region)
             (4 + Z.of_nat (List.length region))))
       1%positive 2 16)
    {[ 1%positive := VStaticBytes (Slice [] 0) ]}.

(** The same with a slice of withdrawals. *)
Definition slice_of_withdrawals (region : list byte) : @state Withdrawal :=
  State
    (DecodeSliceOfStaticObjects
       (OffsetDynamics 4
          (fresh ([x04; x00; x00; x00] ++ region)
             (4 + Z.of_nat (List.length region))))
       1%positive 16)
    {[ 1%positive := VObjects (Slice [] 0) ]}.

(** A message of two byte strings, [ab] and [c], followed by one more
    byte, and two empty targets at the addresses 1 and 2. *)
Definition two_strings : @state Withdrawal :=
  State
    (fresh [x08; x00; x00; x00; x0a; x00; x00; x00; x61; x62; x63; xff] 11)
    {[ 1%positive := VBlob (Slice [] 0); 2%positive := VBlob (Slice [] 0) ]}.

(** The closure queued for item [i] of a slice of blobs: the one of
    [DecodeDynamicBytes] on the address of the item or, for item 0, the
    one queued by hand. *)
Definition item_closure (blobs : loc) (maxSize : Z) (a : action) (i : nat)
  : Prop :=
  a = PendDynamicBytes (BlobElem blobs i) maxSize \/
  (a = PendFirstBlob blobs maxSize /\ i = 0%nat).

(** The withdrawal that the first 44 bytes of [c] encode, and the [n]
    withdrawals that the first [44 * n] bytes encode, as a slice of
    non-nil pointers. *)
Definition Withdrawal_of (c : list byte) : Withdrawal :=
  mkWithdrawal (Uint64 (take 8 c)) (Uint64 (take 8 (drop 8 c)))
    (take 20 (drop 16 c)) (Uint64 (take 8 (drop 36 c))).

Fixpoint withdrawals_of (n : nat) (c : list byte) : list (option Withdrawal) :=
  match n with
  | O => []
  | S n => Some (Withdrawal_of c) :: withdrawals_of n (drop 44 c)
  end.

(** ** Basic facts *)

Lemma fails_with_Some s a s' : fails_with (Some (Errorf s a)) s' <-> s = s'.
Proof.
  split.
  - intros [a' E]. congruence.
  - intros <-. by exists a.
Qed.

Lemma fails_with_None s : ~ fails_with None s.
Proof. by intros [a E]. Qed.

Lemma byte_Z_nonneg b : 0 <= byte_Z b.
Proof. unfold byte_Z. lia. Qed.

Lemma Uint32_nonneg b : 0 <= Uint32 b.
Proof.
  unfold Uint32, at_.
  repeat (apply Z.lor_nonneg; split);
    try apply Z.shiftl_nonneg; apply byte_Z_nonneg.
Qed.

Lemma u32_small z : 0 <= z < 2 ^ 32 -> u32 z = z.
Proof. intros. unfold u32. by apply Z.mod_small. Qed.

Lemma u32_range z : 0 <= u32 z < 2 ^ 32.
Proof. unfold u32. apply Z.mod_pos_bound. lia. Qed.

Lemma readBuf_frame k d d1 e :
  readBuf k d = (d1, e) ->
  err d1 = err d /\ dyn d1 = dyn d /\ length d1 = length d /\
  lengths d1 = lengths d /\ offset d1 = offset d /\ offsets d1 = offsets d /\
  offsetss d1 = offsetss d /\ pend d1 = pend d /\ pends d1 = pends d.
Proof.
  unfold readBuf. destruct (ReadFull _ _) as [[p r] e']. intros [= <- <-].
  by repeat split.
Qed.

(** [decodeOffset] once its four bytes are read. *)
Lemma decodeOffset_read list d d1 :
  readBuf 4 d = (d1, None) ->
  decodeOffset list d =
    let decoded := Uint32 (take 4 (buf d1)) in
    if length d <? decoded then
      (d1, Some (Errorf ErrOffsetBeyondCapacity [decoded; length d]))
    else if is_nil (offsets d) && negb list && negb (offset d =? decoded) then
      (d1, Some (Errorf ErrFirstOffsetMismatch [decoded; offset d]))
    else if negb (is_nil (offsets d)) && (decoded <? offset d) then
      (d1, Some (Errorf ErrBadOffsetProgression [decoded; offset d]))
    else
      (set_offsets (append (offsets d) decoded) (set_offset decoded d1), None).
Proof.
  intros H. unfold decodeOffset. rewrite H.
  destruct (readBuf_frame _ _ _ _ H) as (_ & _ & -> & _ & -> & -> & _).
  reflexivity.
Qed.

Lemma decodeOffset_short list d d1 e :
  readBuf 4 d = (d1, Some e) -> decodeOffset list d = (d1, Some e).
Proof. intros H. unfold decodeOffset. by rewrite H. Qed.

(** An accepted offset: what was checked, and the new state. *)
Lemma decodeOffset_accepted list d d' :
  decodeOffset list d = (d', None) ->
  exists d1,
    readBuf 4 d = (d1, None) /\
    let decoded := Uint32 (take 4 (buf d1)) in
    decoded <= length d /\
    (offsets d <> None -> offset d <= decoded) /\
    (offsets d = None -> list = false -> offset d = decoded) /\
    d' = set_offsets (append (offsets d) decoded) (set_offset decoded d1).
Proof.
  intros H. destruct (readBuf 4 d) as [d1 [e|]] eqn:R.
  { rewrite (decodeOffset_short _ _ _ _ R) in H. discriminate. }
  exists d1. split; [done|]. rewrite (decodeOffset_read _ _ _ R) in H.
  cbv zeta in *.
  destruct (length d <? _) eqn:C1; [discriminate|].
  destruct (is_nil (offsets d) && negb list && negb (offset d =? _)) eqn:C2;
    [discriminate|].
  destruct (negb (is_nil (offsets d)) && (_ <? offset d)) eqn:C3;
    [discriminate|].
  injection H as <-. repeat split.
  - lia.
  - intros N. destruct (offsets d); [|done]. simpl in C3. lia.
  - intros N ->. rewrite N in C2. simpl in C2. lia.
Qed.

Lemma retrieveSize_cons d o0 rest :
  offsets d = Some (o0 :: rest) ->
  retrieveSize d =
    Ok (match rest with
        | o1 :: _ => u32 (o1 - o0)
        | [] => u32 (length d - o0)
        end, set_offsets (Some rest) d).
Proof.
  intros H. unfold retrieveSize. rewrite H. by destruct rest.
Qed.

Lemma retrieveSize_popped d size d' :
  retrieveSize d = Ok (size, d') ->
  exists o0 rest, offsets d = Some (o0 :: rest) /\ d' = set_offsets (Some rest) d.
Proof.
  destruct (offsets d) as [[|o0 rest]|] eqn:E.
  - unfold retrieveSize. rewrite E. discriminate.
  - rewrite (retrieveSize_cons _ _ _ E). intros [= _ <-]. eauto.
  - unfold retrieveSize. rewrite E. discriminate.
Qed.

Lemma validated_offsets_valid d : validated d -> offsets_valid d.
Proof.
  induction 1 as [d N L|d list d' V IH A|d d' V IH L O Q].
  - split; [done|]. intros l E. congruence.
  - destruct IH as [L IH].
    destruct (decodeOffset_accepted _ _ _ A) as (d1 & R & Hle & Hprev & _ & ->).
    destruct (readBuf_frame _ _ _ _ R) as (_ & _ & L1 & _ & O1 & Q1 & _).
    cbv zeta in *. set (decoded := Uint32 (take 4 (buf d1))) in *.
    assert (0 <= decoded) by apply Uint32_nonneg.
    split; simpl; [by rewrite L1|]. intros l [= <-]. rewrite L1.
    split; [lia|]. destruct (offsets d) as [l0|] eqn:E; simpl.
    + destruct (IH l0 eq_refl) as (B & F & S). specialize (Hprev ltac:(done)).
      split.
      * apply Forall_app. split; [|by repeat constructor; lia].
        eapply Forall_impl; [exact F|]. simpl. lia.
      * apply StronglySorted_app_2; [|done|by repeat constructor].
        intros x1 x2 I1 I2. apply list_elem_of_singleton in I2 as ->.
        rewrite Forall_forall in F. specialize (F _ I1). simpl in F. lia.
    + split; repeat constructor; lia.
  - destruct IH as [Lr IH]. split; [by rewrite L|].
    intros l E. rewrite L, O. apply IH. by rewrite <- Q.
Qed.

Lemma draining_queue_valid d : draining d -> queue_valid d.
Proof.
  induction 1 as [d V|d size d' V IH P|d d' V IH L Q].
  - destruct (validated_offsets_valid _ V) as [L B]. split; [done|].
    intros l E. destruct (B _ E) as (Hle & F & S). split; [|done].
    eapply Forall_impl; [exact F|]. simpl. lia.
  - destruct IH as [L IH].
    destruct (retrieveSize_popped _ _ _ P) as (o0 & rest & E & ->).
    split; [done|]. simpl. intros l [= <-].
    destruct (IH _ E) as (F & S).
    apply Forall_cons in F as [_ F]. by apply StronglySorted_inv in S as [S _].
  - destruct IH as [Lr IH]. split; [by rewrite L|].
    intros l E. rewrite L. apply IH. by rewrite <- Q.
Qed.

(** ** Offsets: validation and region lengths *)

(** C2. Reading an offset that is not the first of its container (the queue
    is not nil, and the decoder is in a validated state, so that the last
    offset is the one read before in this container): once the four bytes
    are read, [decodeOffset] fails with a bad offset progression exactly
    when the decoded offset is strictly below the previous one; an offset
    equal to the previous one is accepted and appended to the queue. *)
Theorem bad_offset_progression_iff (d d1 : Decoder) (counter : bool)
    (l : list Z) :
  validated d ->
  offsets d = Some l ->
  readBuf 4 d = (d1, None) ->
  (fails_with (decodeOffset counter d).2 ErrBadOffsetProgression <->
   Uint32 (take 4 (buf d1)) < offset d) /\
  (Uint32 (take 4 (buf d1)) = offset d ->
   decodeOffset counter d =
     (set_offsets (Some (l ++ [offset d])) (set_offset (offset d) d1), None)).
Proof.
  intros V E R. rewrite (decodeOffset_read _ _ _ R). cbv zeta.
  destruct (validated_offsets_valid _ V) as [_ B].
  destruct (B _ E) as ([_ Hle] & _). rewrite E. simpl.
  set (decoded := Uint32 (take 4 (buf d1))).
  destruct (length d <? decoded) eqn:C1; simpl.
  - split; [|lia]. rewrite fails_with_Some. split; [done|lia].
  - destruct (decoded <? offset d) eqn:C3; simpl.
    + split; [|lia]. rewrite fails_with_Some. split; [lia|done].
    + split.
      * split; [intros F; by apply fails_with_None in F|lia].
      * by intros ->.
Qed.

(** C3, as the code has it. When the first offset of a container is read by
    a declaration that is not a list counter, [decodeOffset] fails with a
    first offset mismatch exactly when the offset is at most the container
    length and differs from the expected head size; an offset beyond the
    container length is reported as such, whatever the head size. *)
Theorem first_offset_mismatch_iff (d d1 : Decoder) :
  offsets d = None ->
  readBuf 4 d = (d1, None) ->
  (fails_with (decodeOffset false d).2 ErrFirstOffsetMismatch <->
   Uint32 (take 4 (buf d1)) <= length d /\ Uint32 (take 4 (buf d1)) <> offset d).
Proof.
  intros E R. rewrite (decodeOffset_read _ _ _ R). cbv zeta. rewrite E. simpl.
  set (decoded := Uint32 (take 4 (buf d1))).
  destruct (length d <? decoded) eqn:C1; simpl.
  - rewrite fails_with_Some. split; [done|lia].
  - destruct (offset d =? decoded) eqn:C2; simpl.
    + split; [intros F; by apply fails_with_None in F|lia].
    + rewrite fails_with_Some. split; [lia|done].
Qed.

(** C10. In the tail of a container whose offsets went through the
    validations of [decodeOffset], the [uint32] subtraction of
    [retrieveSize] does not wrap: the size it returns is the difference
    itself, it is not negative and it is at most the container length; the
    state it leaves is again such a state. *)
Theorem region_length_no_wrap (d : Decoder) (o0 : Z) (rest : list Z) :
  draining d ->
  offsets d = Some (o0 :: rest) ->
  retrieveSize d = Ok (region_length d o0 rest, set_offsets (Some rest) d) /\
  0 <= region_length d o0 rest <= length d /\
  draining (set_offsets (Some rest) d).
Proof.
  intros V E. destruct (draining_queue_valid _ V) as [L B].
  destruct (B _ E) as (F & S).
  apply Forall_cons in F as [H0 F]. apply StronglySorted_inv in S as [S H01].
  assert (Hr : 0 <= region_length d o0 rest <= length d).
  { unfold region_length. destruct rest as [|o1 rest]; [lia|].
    apply Forall_cons in F as [H1 _]. apply Forall_cons in H01 as [H01 _]. lia. }
  assert (P : retrieveSize d =
              Ok (region_length d o0 rest, set_offsets (Some rest) d)).
  { rewrite (retrieveSize_cons _ _ _ E). unfold region_length in *.
    destruct rest; rewrite u32_small; (done || lia). }
  split; [done|]. split; [done|]. by eapply draining_pop.
Qed.

(** ** Slices and targets *)

Lemma expand_ok {A} (zero : A) (s : slice A) (n : Z) :
  exists s', expand zero s n = Ok s' /\
    len s' = Z.to_nat n /\ (len s' <= cap s')%nat.
Proof.
  unfold expand. destruct (u32 (Z.of_nat (cap s)) <? n) eqn:C.
  - eexists. split; [done|]. unfold make, cap. simpl.
    by rewrite length_replicate.
  - unfold reslice. assert (u32 (Z.of_nat (cap s)) <= Z.of_nat (cap s)).
    { unfold u32. apply Z.mod_le; lia. }
    apply Z.ltb_ge in C.
    destruct (Z.to_nat n <=? cap s)%nat eqn:C'.
    + apply Nat.leb_le in C'. eexists. split; [done|]. by unfold cap in *.
    + apply Nat.leb_gt in C'. lia.
Qed.

Lemma length_elems {A} (s : slice A) :
  (len s <= cap s)%nat -> List.length (elems s) = len s.
Proof. intros H. unfold elems, cap in *. rewrite length_take. lia. Qed.

Lemma ReadFull_length r p p' r' e :
  ReadFull r p = (p', r', e) ->
  List.length p' = List.length p /\ r' = drop (List.length p) r.
Proof.
  unfold ReadFull. intros [= <- <- _]. split; [|done].
  rewrite length_app, length_drop, length_take. lia.
Qed.

Lemma DecodeStaticBytes_reads d bytes d' bytes' :
  err d = None ->
  DecodeStaticBytes d bytes = (d', bytes') ->
  in_ d' = drop (List.length bytes) (in_ d) /\
  List.length bytes' = List.length bytes /\
  length d' = length d /\ lengths d' = lengths d /\ offset d' = offset d /\
  offsets d' = offsets d /\ offsetss d' = offsetss d /\
  pend d' = pend d /\ pends d' = pends d.
Proof.
  intros E. unfold DecodeStaticBytes, latched. rewrite E.
  destruct (ReadFull _ _) as [[p r] e] eqn:R. intros [= <- <-].
  destruct (ReadFull_length _ _ _ _ _ R) as [-> ->]. by repeat split.
Qed.

Lemma decodeOffset_frame counter d d' e :
  decodeOffset counter d = (d', e) ->
  err d' = err d /\ dyn d' = dyn d /\ length d' = length d /\
  lengths d' = lengths d /\ offsetss d' = offsetss d /\
  pend d' = pend d /\ pends d' = pends d.
Proof.
  destruct (readBuf 4 d) as [d1 [e1|]] eqn:R.
  - rewrite (decodeOffset_short _ _ _ _ R). intros [= <- <-].
    destruct (readBuf_frame _ _ _ _ R) as (? & ? & ? & ? & _ & _ & ? & ? & ?).
    by repeat split.
  - rewrite (decodeOffset_read _ _ _ R). cbv zeta.
    destruct (readBuf_frame _ _ _ _ R) as (? & ? & ? & ? & _ & _ & ? & ? & ?).
    repeat case_match; intros [= <- <-]; by repeat split.
Qed.

Lemma index_top {A} (l : list A) (x : A) :
  index (l ++ [x]) (List.length (l ++ [x]) - 1) = Ok x.
Proof.
  unfold index. rewrite length_app. simpl.
  replace (List.length l + 1 - 1)%nat with (List.length l) by lia.
  by rewrite list_lookup_middle.
Qed.

Lemma take_top {A} (l : list A) (x : A) :
  take (List.length (l ++ [x]) - 1) (l ++ [x]) = l.
Proof.
  rewrite length_app. simpl.
  replace (List.length l + 1 - 1)%nat with (List.length l) by lia.
  by rewrite take_app_length.
Qed.

Section properties.
Context {U : Type} `{!newableObject U}.
Implicit Types (s : @state U) (h : gmap loc (@value U)).
Implicit Types (run : action -> @state U -> res (@state U)).

Lemma load_store_blob p b0 b h :
  load_blob p h = Ok b0 ->
  exists h', store_blob p b h = Ok h' /\ load_blob p h' = Ok b.
Proof.
  destruct p as [l|l i]; simpl.
  - destruct (h !! l) as [[]|] eqn:E; try discriminate. intros _.
    eexists. split; [done|]. by rewrite lookup_insert_eq.
  - destruct (h !! l) as [[|bs| |]|] eqn:E; try discriminate.
    unfold index. destruct (arr bs !! i) eqn:I; [|discriminate]. intros _.
    simpl. eexists. split; [done|]. rewrite lookup_insert_eq. simpl.
    rewrite list_lookup_insert_eq; [done|]. by eapply lookup_lt_Some.
Qed.

(** C1. With a non-empty queue of offsets, [retrieveSize] returns
    [offsets[1] - offsets[0]] when a second offset is queued and
    [length - offsets[0]] when the front offset is the only one (both in
    [uint32]), and leaves the queue without its front offset. The tail
    action of a byte string then reads the region from that state: its
    target gets that many bytes, taken off the input, and the queue it
    leaves is the popped one. *)
Theorem tail_region_length s (o0 : Z) (rest : list Z) :
  offsets (dec s) = Some (o0 :: rest) ->
  retrieveSize (dec s) =
    Ok (match rest with
        | o1 :: _ => u32 (o1 - o0)
        | [] => u32 (length (dec s) - o0)
        end, set_offsets (Some rest) (dec s)) /\
  forall size popped blob maxSize b,
    retrieveSize (dec s) = Ok (size, popped) ->
    err (dec s) = None ->
    size <= maxSize ->
    load_blob blob (heap s) = Ok b ->
    exists s' b',
      decodeDynamicBytes blob maxSize s = Ok s' /\
      offsets (dec s') = Some rest /\
      load_blob blob (heap s') = Ok b' /\
      len b' = Z.to_nat size /\
      in_ (dec s') = drop (Z.to_nat size) (in_ (dec s)).
Proof.
  intros E. split; [by apply retrieveSize_cons|].
  intros size popped blob maxSize b P L M B.
  unfold decodeDynamicBytes, latched. rewrite L, P. simpl.
  destruct (maxSize <? size) eqn:C; [lia|]. rewrite B. simpl.
  destruct (expand_ok x00 b size) as (b1 & -> & Hlen & Hcap). simpl.
  rewrite (retrieveSize_cons _ _ _ E) in P. injection P as _ <-.
  destruct (DecodeStaticBytes _ (elems b1)) as [d2 bytes] eqn:D.
  apply DecodeStaticBytes_reads in D as (I & _ & _ & _ & _ & O & _); [|done].
  destruct (load_store_blob blob b (with_elems b1 bytes) (heap s) B)
    as (h' & -> & Hload).
  simpl. eexists _, _. split; [done|]. simpl.
  rewrite length_elems in I by done. rewrite Hlen in I.
  by repeat split.
Qed.

(** C4. Once the four bytes of an offset are read, an offset above the
    container length makes [decodeOffset] fail with an offset beyond
    capacity; each offset declaration, and the counter offset of a slice of
    blobs, latches that error and queues nothing. *)
Theorem offset_beyond_capacity (d d1 : Decoder) (counter : bool) h :
  readBuf 4 d = (d1, None) ->
  err d = None ->
  length d < Uint32 (take 4 (buf d1)) ->
  let e := Errorf ErrOffsetBeyondCapacity [Uint32 (take 4 (buf d1)); length d] in
  decodeOffset counter d = (d1, Some e) /\
  (forall blob maxSize, DecodeDynamicBytes d blob maxSize = set_err (Some e) d1) /\
  (forall bytes itemSize maxItems,
     DecodeSliceOfStaticBytes d bytes itemSize maxItems = set_err (Some e) d1) /\
  (forall blobs maxItems maxSize,
     DecodeSliceOfDynamicBytes d blobs maxItems maxSize = set_err (Some e) d1) /\
  (forall objects maxItems,
     StaticSSZ = true ->
     DecodeSliceOfStaticObjects d objects maxItems = set_err (Some e) d1) /\
  (forall blobs maxItems maxSize,
     decodeCounterAndQueue blobs maxItems maxSize (State d h) =
       Ok (State (set_err (Some e) d1) h)) /\
  pend (set_err (Some e) d1) = pend d /\
  offsets (set_err (Some e) d1) = offsets d.
Proof.
  intros R E C e.
  assert (D : forall c, decodeOffset c d = (d1, Some e)).
  { intros c. rewrite (decodeOffset_read _ _ _ R). cbv zeta.
    destruct (length d <? _) eqn:C1; [done|lia]. }
  destruct (readBuf_frame _ _ _ _ R) as (_ & _ & _ & _ & _ & Q & _ & P & _).
  unfold DecodeDynamicBytes, DecodeSliceOfStaticBytes, DecodeSliceOfDynamicBytes,
    DecodeSliceOfStaticObjects, decodeCounterAndQueue, offsetThenQueue, latched.
  rewrite E. simpl. rewrite !D. simpl.
  repeat split; try done. by intros ? ? ->.
Qed.

(** C8. With the error latched, every decode operation returns the decoder
    and its target as they were: nothing is read, nothing is queued or
    popped, and the latched error stays. *)
Theorem latched_is_noop (d : Decoder) h run :
  err d <> None ->
  (forall n, DecodeUint64 d n = (d, n)) /\
  (forall n, DecodeUint256 d n = (d, n)) /\
  (forall bytes, DecodeStaticBytes d bytes = (d, bytes)) /\
  (forall bytes, DecodeArrayOfStaticBytes d bytes = (d, bytes)) /\
  (forall blob maxSize, DecodeDynamicBytes d blob maxSize = d) /\
  (forall bytes itemSize maxItems,
     DecodeSliceOfStaticBytes d bytes itemSize maxItems = d) /\
  (forall blobs maxItems maxSize,
     DecodeSliceOfDynamicBytes d blobs maxItems maxSize = d) /\
  (forall objects maxItems, DecodeSliceOfStaticObjects d objects maxItems = d) /\
  (forall blob maxSize,
     decodeDynamicBytes blob maxSize (State d h) = Ok (State d h)) /\
  (forall bytes itemSize maxItems,
     decodeSliceOfStaticBytes bytes itemSize maxItems (State d h) =
       Ok (State d h)) /\
  (forall blobs maxItems maxSize,
     decodeSliceOfDynamicBytes run blobs maxItems maxSize (State d h) =
       Ok (State d h)) /\
  (forall objects maxItems,
     decodeSliceOfStaticObjects objects maxItems (State d h) = Ok (State d h)).
Proof.
  intros E.
  assert (L : latched d = true).
  { unfold latched. by destruct (err d). }
  unfold DecodeUint64, DecodeUint256, DecodeStaticBytes,
    DecodeArrayOfStaticBytes, DecodeDynamicBytes, DecodeSliceOfStaticBytes,
    DecodeSliceOfDynamicBytes, DecodeSliceOfStaticObjects, decodeDynamicBytes,
    decodeSliceOfStaticBytes, decodeSliceOfDynamicBytes,
    decodeSliceOfStaticObjects.
  simpl. rewrite L. by repeat split.
Qed.

(** C9. When the region of a slice field has length zero, each of the three
    slice decoders returns without an error and without touching the heap:
    the caller's slice keeps its length and its contents; only the front
    offset is gone from the queue. *)
Theorem empty_region_keeps_slice s (popped : Decoder) run :
  err (dec s) = None ->
  retrieveSize (dec s) = Ok (0, popped) ->
  (forall bytes itemSize maxItems,
     decodeSliceOfStaticBytes bytes itemSize maxItems s =
       Ok (State popped (heap s))) /\
  (forall objects maxItems,
     decodeSliceOfStaticObjects objects maxItems s = Ok (State popped (heap s))) /\
  (forall blobs maxItems maxSize,
     decodeSliceOfDynamicBytes run blobs maxItems maxSize s =
       Ok (State popped (heap s))) /\
  err popped = None.
Proof.
  intros E P.
  unfold decodeSliceOfStaticBytes, decodeSliceOfStaticObjects,
    decodeSliceOfDynamicBytes, latched.
  rewrite E, P. simpl. repeat split.
  destruct (retrieveSize_popped _ _ _ P) as (o0 & rest & _ & ->). done.
Qed.

(** C6, as the code has it. A region of a slice of blobs of one, two or
    three bytes fails with a short counter offset; nothing is read and the
    heap is as it was. (A region of no bytes is the empty slice, and no
    error.) *)
Theorem short_counter_offset s (size : Z) (popped : Decoder) run
    blobs maxItems maxSize :
  err (dec s) = None ->
  retrieveSize (dec s) = Ok (size, popped) ->
  0 < size < 4 ->
  decodeSliceOfDynamicBytes run blobs maxItems maxSize s =
    Ok (State (set_err (Some (Errorf ErrShortCounterOffset [size])) popped)
          (heap s)).
Proof.
  intros E P B. unfold decodeSliceOfDynamicBytes, latched. rewrite E, P. simpl.
  destruct (size =? 0) eqn:C0; [lia|]. destruct (size <? 4) eqn:C4; [done|lia].
Qed.

(** The deferred [ascendFromDynamic]: once the queue is drained, the three
    stacks are popped. *)
Lemma ascendFromDynamic_pops run s s' ls n ps p os o :
  runAll run (pend (dec s)) s = Ok s' ->
  lengths (dec s') = ls ++ [n] ->
  pends (dec s') = ps ++ [p] ->
  offsetss (dec s') = os ++ [o] ->
  exists d',
    ascendFromDynamic run s = Ok (State d' (heap s')) /\
    err d' = err (dec s') /\ length d' = n /\ lengths d' = ls /\
    pend d' = p /\ pends d' = ps /\ offsets d' = o /\ offsetss d' = os.
Proof.
  intros R L P O. unfold ascendFromDynamic, dynamicDone. rewrite R. simpl.
  rewrite P, O, !index_top. simpl. rewrite L, index_top. simpl.
  rewrite !take_top. eexists. split; [done|]. by repeat split.
Qed.

Lemma descendIntoDynamic_fields size d :
  let d' := descendIntoDynamic size d in
  err d' = err d /\ length d' = size /\ lengths d' = lengths d ++ [length d] /\
  offset d' = 0 /\ offsets d' = None /\ offsetss d' = offsetss d ++ [offsets d] /\
  pend d' = [] /\ pends d' = pends d ++ [pend d] /\ in_ d' = in_ d /\
  buf d' = buf d.
Proof. by repeat split. Qed.

(** A failure between the [defer] and the queueing of the first closure:
    the deferred drain has nothing to run and the error stays latched. *)
Lemma counter_failure run size popped counted e h :
  decodeOffset true (descendIntoDynamic size popped) = (counted, None) ->
  exists d',
    ascendFromDynamic run (State (set_err (Some e) counted) h) = Ok (State d' h) /\
    err d' = Some e.
Proof.
  intros D.
  destruct (decodeOffset_frame _ _ _ _ D) as (_ & _ & _ & L & O & P & Ps).
  destruct (descendIntoDynamic_fields size popped)
    as (_ & _ & L' & _ & _ & O' & P' & Ps' & _).
  cbv zeta in *.
  destruct (ascendFromDynamic_pops run (State (set_err (Some e) counted) h)
              (State (set_err (Some e) counted) h)
              (lengths popped) (length popped) (pends popped) (pend popped)
              (offsetss popped) (offsets popped))
    as (d' & -> & E & _); simpl.
  - by rewrite P, P'.
  - by rewrite L, L'.
  - by rewrite Ps, Ps'.
  - by rewrite O, O'.
  - by exists d'.
Qed.


(** ** The drain of a slice of blobs *)

Lemma latched_false d : latched d = false -> err d = None.
Proof. unfold latched. by destruct (err d). Qed.

Lemma DecodeDynamicBytes_queues d blob maxSize :
  let d' := DecodeDynamicBytes d blob maxSize in
  lengths d' = lengths d /\ pends d' = pends d /\ offsetss d' = offsetss d /\
  (latched d' = true /\ pend d' = pend d \/
   latched d' = false /\
   pend d' = pend d ++ [PendDynamicBytes blob maxSize] /\
   List.length (elements (offsets d')) = S (List.length (elements (offsets d)))).
Proof.
  cbv zeta. unfold DecodeDynamicBytes. destruct (latched d) eqn:La.
  { repeat split. by left. }
  unfold offsetThenQueue. destruct (decodeOffset false d) as [d1 e] eqn:D.
  destruct (decodeOffset_frame _ _ _ _ D) as (_ & _ & _ & L & O & P & Ps).
  destruct e as [e|]; simpl.
  - unfold latched. simpl. rewrite L, Ps, O, P. repeat split. by left.
  - unfold latched. simpl. rewrite L, Ps, O, P. repeat split. right.
    destruct (decodeOffset_accepted _ _ _ D) as (d0 & _ & _ & _ & _ & ->).
    simpl. rewrite length_app. simpl. repeat split. lia.
Qed.

Lemma queue_loop blobs n maxSize ls ps os (indices : list nat) d :
  queue_inv blobs n maxSize ls ps os (pend d) d ->
  Forall (fun i => (i < n)%nat) indices ->
  let d' := foldl (fun d i => DecodeDynamicBytes d (BlobElem blobs i) maxSize)
              d indices in
  queue_inv blobs n maxSize ls ps os (pend d') d'.
Proof.
  revert d. induction indices as [|i indices IH]; intros d Q F; [done|].
  apply Forall_cons in F as [Hi F]. simpl. apply IH; [|done].
  destruct Q as (Fq & Hq & L & P & O).
  destruct (DecodeDynamicBytes_queues d (BlobElem blobs i) maxSize)
    as (L' & P' & O' & [[La Pe]|(La & Pe & Len)]).
  - split; [by rewrite Pe|]. split; [by rewrite La|]. by rewrite L', P', O'.
  - split.
    { rewrite Pe. apply Forall_app. split; [done|].
      apply Forall_singleton. right. eauto. }
    split; [|by rewrite L', P', O'].
    intros _. rewrite Pe, length_app, Len. simpl.
    destruct (latched d) eqn:Ld.
    + unfold DecodeDynamicBytes in La. rewrite Ld in La. congruence.
    + specialize (Hq eq_refl). lia.
Qed.

Lemma decodeDynamicBytes_element blobs n maxSize i s :
  (i < n)%nat ->
  slice_inv blobs n (heap s) ->
  (latched (dec s) = false -> elements (offsets (dec s)) <> []) ->
  exists s',
    decodeDynamicBytes (BlobElem blobs i) maxSize s = Ok s' /\
    slice_inv blobs n (heap s') /\
    lengths (dec s') = lengths (dec s) /\ pends (dec s') = pends (dec s) /\
    offsetss (dec s') = offsetss (dec s) /\
    (latched (dec s') = false ->
     List.length (elements (offsets (dec s'))) =
       pred (List.length (elements (offsets (dec s))))).
Proof.
  intros Hi (b & Hb & Hlen & Hcap) Hq. unfold decodeDynamicBytes.
  destruct (latched (dec s)) eqn:La.
  { exists s. split; [done|]. split; [by exists b|]. repeat split. congruence. }
  specialize (Hq eq_refl).
  destruct (offsets (dec s)) as [[|o0 rest]|] eqn:E; try done.
  rewrite (retrieveSize_cons _ _ _ E). simpl.
  set (size := match rest with _ :: _ => _ | [] => _ end).
  destruct (maxSize <? size) eqn:C.
  { eexists. split; [done|]. split; [by exists b|]. simpl.
    repeat split; try (unfold latched; simpl; congruence). }
  rewrite Hb. unfold index.
  destruct (arr b !! i) as [x|] eqn:I; cycle 1.
  { apply lookup_ge_None in I. unfold cap in Hcap. lia. }
  simpl. destruct (expand_ok x00 x size) as (x1 & -> & _). simpl.
  destruct (DecodeStaticBytes _ (elems x1)) as [d2 bytes] eqn:D.
  apply DecodeStaticBytes_reads in D
    as (_ & _ & _ & L & _ & O & Os & _ & Ps); [|by apply latched_false].
  eexists. split; [done|]. simpl. split.
  { eexists. rewrite lookup_insert_eq. split; [done|]. simpl. split; [done|].
    unfold cap. simpl. by rewrite length_insert. }
  rewrite L, Ps, Os, O. by repeat split.
Qed.

Lemma drain_blobs fuel blobs n maxSize ls ps os q s :
  (0 < n)%nat ->
  queue_inv blobs n maxSize ls ps os q (dec s) ->
  slice_inv blobs n (heap s) ->
  exists s',
    runAll (call (S fuel)) q s = Ok s' /\
    slice_inv blobs n (heap s') /\
    lengths (dec s') = ls /\ pends (dec s') = ps /\ offsetss (dec s') = os.
Proof.
  intros Hn. revert s. induction q as [|a q IH]; intros s Q Hs.
  { destruct Q as (_ & _ & L & P & O). by exists s. }
  destruct Q as (Fq & Hq & L & P & O). apply Forall_cons in Fq as [Ha Fq].
  assert (Hne : latched (dec s) = false -> elements (offsets (dec s)) <> []).
  { intros La N. specialize (Hq La). rewrite N in Hq. simpl in Hq. lia. }
  assert (exists i, (i < n)%nat /\
            call (S fuel) a s = decodeDynamicBytes (BlobElem blobs i) maxSize s)
    as (i & Hi & Hcall).
  { destruct Ha as [->|(i & Hi & ->)]; [|by exists i].
    exists 0%nat. split; [done|]. simpl. unfold load_blobs.
    destruct Hs as (b & -> & Hlen & _). simpl.
    destruct (0 <? len b)%nat eqn:C; [done|]. apply Nat.ltb_ge in C. lia. }
  destruct (decodeDynamicBytes_element blobs n maxSize i s Hi Hs Hne)
    as (s1 & R & Hs1 & L1 & P1 & O1 & Len).
  cbn [runAll]. rewrite Hcall, R. cbn [bind]. apply IH; [|done].
  split; [done|]. split; [|by rewrite L1, P1, O1].
  intros La. specialize (Len La). destruct (latched (dec s)) eqn:Ld.
  - clear -R Ld La. unfold decodeDynamicBytes in R. rewrite Ld in R.
    injection R as <-. congruence.
  - specialize (Hq eq_refl). simpl in Hq. lia.
Qed.

(** C5, as the code has it. In a region of at least four bytes, let the
    counter offset be accepted by [decodeOffset] (its four bytes are read
    and it is at most the region length) and call it O. If O is not a
    multiple of four the decoder fails with a bad counter offset; if O/4 is
    above the item cap it fails with a maximum items exceeded; otherwise,
    for O other than zero, the slice has exactly O/4 items when the decoder
    returns, whatever happened to the items themselves. *)
Theorem counter_offset_items s (size : Z) (popped counted : Decoder)
    (fuel : nat) blobs maxItems maxSize :
  err (dec s) = None ->
  retrieveSize (dec s) = Ok (size, popped) ->
  4 <= size ->
  decodeOffset true (descendIntoDynamic size popped) = (counted, None) ->
  (offset counted mod 4 <> 0 ->
   exists d',
     decodeSliceOfDynamicBytes (call (S fuel)) blobs maxItems maxSize s =
       Ok (State d' (heap s)) /\
     fails_with (err d') ErrBadCounterOffset) /\
  (offset counted mod 4 = 0 ->
   maxItems < offset counted / 4 ->
   exists d',
     decodeSliceOfDynamicBytes (call (S fuel)) blobs maxItems maxSize s =
       Ok (State d' (heap s)) /\
     err d' = Some (Errorf ErrMaxItemsExceeded [offset counted / 4; maxItems])) /\
  (offset counted mod 4 = 0 ->
   offset counted / 4 <= maxItems ->
   offset counted <> 0 ->
   forall bs,
     heap s !! blobs = Some (VBlobs bs) ->
     exists s' bs',
       decodeSliceOfDynamicBytes (call (S fuel)) blobs maxItems maxSize s = Ok s' /\
       heap s' !! blobs = Some (VBlobs bs') /\
       Z.of_nat (len bs') = offset counted / 4).
Proof.
  intros E P S4 D.
  assert (Hshift : Z.shiftr (offset counted) 2 = offset counted / 4).
  { by rewrite Z.shiftr_div_pow2. }
  assert (Hstart :
    decodeSliceOfDynamicBytes (call (S fuel)) blobs maxItems maxSize s =
      let* s1 := decodeCounterAndQueue blobs maxItems maxSize
                   (State (descendIntoDynamic size popped) (heap s)) in
      ascendFromDynamic (call (S fuel)) s1).
  { unfold decodeSliceOfDynamicBytes, latched. rewrite E, P. simpl.
    destruct (size =? 0) eqn:C0; [lia|]. by destruct (size <? 4) eqn:C4; [lia|]. }
  rewrite Hstart. clear Hstart. unfold decodeCounterAndQueue. simpl dec.
  rewrite D. simpl heap. rewrite Hshift. repeat split.
  - intros M. destruct (offset counted mod 4 =? 0) eqn:C; [lia|].
    cbn [bind negb].
    destruct (counter_failure (call (S fuel)) size popped counted
                (Errorf ErrBadCounterOffset (elements (offsets counted)))
                (heap s) D) as (d' & -> & Ed).
    exists d'. split; [done|]. rewrite Ed. by apply fails_with_Some.
  - intros M C. rewrite M. cbn [bind negb Z.eqb].
    destruct (maxItems <? offset counted / 4) eqn:C'; [|lia]. cbn [bind].
    by apply (counter_failure (call (S fuel)) size popped counted).
  - intros M C N bs Hbs. rewrite M. cbn [bind negb Z.eqb].
    destruct (maxItems <? offset counted / 4) eqn:C'; [lia|].
    unfold load_blobs. rewrite Hbs. cbn [bind].
    destruct (expand_ok (Slice [] 0) bs (offset counted / 4))
      as (bs1 & -> & Hlen & Hcap).
    cbn [bind]. set (n := Z.to_nat (offset counted / 4)) in *.
    destruct (decodeOffset_accepted _ _ _ D) as (d1 & R & _ & _ & _ & Hc).
    destruct (decodeOffset_frame _ _ _ _ D) as (_ & _ & _ & L & O & Pe & Ps).
    destruct (descendIntoDynamic_fields size popped)
      as (_ & _ & L' & _ & Q' & O' & Pe' & Ps' & _).
    cbv zeta in *.
    assert (H0 : 0 <= offset counted).
    { rewrite Hc. simpl. apply Uint32_nonneg. }
    assert (Hn : (0 < n)%nat).
    { pose proof (Z.div_mod (offset counted) 4 ltac:(lia)). unfold n. lia. }
    set (d3 := set_pend (pend counted ++ [PendFirstBlob blobs maxSize]) counted).
    set (d4 := foldl _ d3 _).
    assert (Q4 : queue_inv blobs n maxSize (lengths popped ++ [length popped])
                   (pends popped ++ [pend popped])
                   (offsetss popped ++ [offsets popped]) (pend d4) d4).
    { apply queue_loop.
      - split.
        { simpl. rewrite Pe, Pe'. apply Forall_singleton. by left. }
        split; [|by rewrite <- L', <- Ps', <- O'].
        intros _. simpl. rewrite Pe, Pe', Hc. simpl. lia.
      - apply Forall_forall. intros i Hi. apply elem_of_seq in Hi. lia. }
    destruct (drain_blobs fuel blobs n maxSize _ _ _ (pend d4)
                (State d4 (<[blobs := VBlobs bs1]> (heap s))) Hn Q4)
      as (s' & Run & (b & Hb & Hbl & _) & Ls & Pss & Os).
    { exists bs1. simpl. rewrite lookup_insert_eq.
      split; [done|]. split; [done|]. by rewrite <- Hlen. }
    destruct (ascendFromDynamic_pops (call (S fuel))
                (State d4 (<[blobs := VBlobs bs1]> (heap s))) s'
                _ _ _ _ _ _ Run Ls Pss Os) as (d' & -> & _).
    exists (State d' (heap s')), b. split; [done|]. split; [done|].
    rewrite Hbl. lia.
Qed.

(** ** The invariants along the operations of the decoder

    The head operations keep a validated head validated, the tail of a
    validated head is draining, the byte-string action keeps it draining,
    and the region of a nested slice starts a validated head of its own. *)

Lemma decodeOffset_rejected counter d d' e :
  decodeOffset counter d = (d', Some e) ->
  length d' = length d /\ offset d' = offset d /\ offsets d' = offsets d.
Proof.
  destruct (readBuf 4 d) as [d1 [e1|]] eqn:R.
  - rewrite (decodeOffset_short _ _ _ _ R). intros [= <- _].
    destruct (readBuf_frame _ _ _ _ R) as (_ & _ & ? & _ & ? & ? & _). done.
  - rewrite (decodeOffset_read _ _ _ R). cbv zeta.
    destruct (readBuf_frame _ _ _ _ R) as (_ & _ & ? & _ & ? & ? & _).
    repeat case_match; intros [= <- _]; done.
Qed.

Lemma validated_DecodeUint64 d n : validated d -> validated (DecodeUint64 d n).1.
Proof.
  intros V. unfold DecodeUint64. destruct (latched d); [done|].
  destruct (readBuf 8 d) as [d1 e] eqn:R.
  destruct (readBuf_frame _ _ _ _ R) as (_ & _ & ? & _ & ? & ? & _).
  by apply (validated_frame d).
Qed.

Lemma validated_DecodeStaticBytes d bytes :
  validated d -> validated (DecodeStaticBytes d bytes).1.
Proof.
  intros V. unfold DecodeStaticBytes. destruct (latched d); [done|].
  destruct (ReadFull _ _) as [[b r] e]. by apply (validated_frame d).
Qed.

Lemma validated_DecodeDynamicBytes d blob maxSize :
  validated d -> validated (DecodeDynamicBytes d blob maxSize).
Proof.
  intros V. unfold DecodeDynamicBytes. destruct (latched d); [done|].
  unfold offsetThenQueue. destruct (decodeOffset false d) as [d1 [e|]] eqn:D.
  - destruct (decodeOffset_rejected _ _ _ _ D) as (? & ? & ?).
    by apply (validated_frame d).
  - unfold latched. simpl. apply (validated_frame d1); [|done..].
    by apply (validated_read d false).
Qed.

Lemma validated_region d size d' :
  retrieveSize d = Ok (size, d') -> validated (descendIntoDynamic size d').
Proof.
  intros P. apply validated_enter; [done|]. simpl.
  destruct (retrieveSize_popped _ _ _ P) as (o0 & rest & E & _).
  rewrite (retrieveSize_cons _ _ _ E) in P. injection P as <- _.
  destruct rest; apply u32_range.
Qed.

Lemma draining_decodeDynamicBytes blob maxSize s s' :
  draining (dec s) ->
  decodeDynamicBytes blob maxSize s = Ok s' ->
  draining (dec s').
Proof.
  intros Dr. unfold decodeDynamicBytes. destruct (latched (dec s)) eqn:La.
  { by intros [= <-]. }
  destruct (retrieveSize (dec s)) as [[size d]| |] eqn:P; try discriminate.
  simpl. assert (Dd : draining d) by by eapply draining_pop.
  destruct (maxSize <? size).
  { intros [= <-]. simpl. by apply (draining_frame d). }
  destruct (load_blob blob (heap s)) as [b| |]; try discriminate. simpl.
  destruct (expand x00 b size) as [b1| |]; try discriminate. simpl.
  destruct (DecodeStaticBytes d (elems b1)) as [d2 bytes] eqn:D.
  destruct (store_blob _ _ _) as [h| |]; try discriminate. simpl.
  intros [= <-]. simpl.
  assert (E : err d = None).
  { destruct (retrieveSize_popped _ _ _ P) as (? & ? & _ & ->).
    simpl. by apply latched_false. }
  apply DecodeStaticBytes_reads in D as (_ & _ & ? & _ & _ & ? & _); [|done].
  by apply (draining_frame d).
Qed.

End properties.

(** ** The statements on concrete messages *)

(** Facts about a concrete message are settled by evaluation. *)
Ltac evaluate := vm_compute; reflexivity.

Lemma tail_next_validated : validated (tail_next x08 x0a).
Proof.
  apply (validated_read (second_slot x08 x0a) false);
    [|evaluate].
  apply (validated_read (two_slots x08 x0a) false);
    [|evaluate].
  apply validated_enter; [evaluate|]. simpl. lia.
Qed.

Lemma second_slot_validated second : validated (second_slot x08 second).
Proof.
  apply (validated_read (two_slots x08 second) false).
  - apply validated_enter; [evaluate|]. simpl. lia.
  - evaluate.
Qed.

(** The queue [8; 10] in a container of 12 bytes: the first region has
    [10 - 8] bytes, and the byte string decoded from it gets two bytes. *)
Lemma tail_region_length_witness :
  offsets (tail_next x08 x0a) = Some [8; 10] /\
  retrieveSize (tail_next x08 x0a) =
    Ok (2, set_offsets (Some [10]) (tail_next x08 x0a)) /\
  exists s' b',
    decodeDynamicBytes (BlobVar 1%positive) 16
      (State (tail_next x08 x0a)
         ({[ 1%positive := VBlob (Slice [] 0) ]} : gmap loc (@value Withdrawal)))
      = Ok s' /\
    load_blob (BlobVar 1%positive) (heap s') = Ok b' /\ len b' = 2%nat.
Proof.
  pose proof (tail_region_length
                (State (tail_next x08 x0a)
                   ({[ 1%positive := VBlob (Slice [] 0) ]}
                    : gmap loc (@value Withdrawal)))
                8 [10] ltac:(evaluate)) as [P T].
  split; [evaluate|]. split; [evaluate|].
  destruct (T _ _ (BlobVar 1%positive) 16 (Slice [] 0) P
              ltac:(evaluate) ltac:(vm_compute; discriminate)
              ltac:(evaluate))
    as (s' & b' & R & _ & B & L & _).
  exists s', b'. split; [exact R|]. split; [exact B|exact L].
Defined.

(** After the offset 8, the offset 4 is a bad progression. *)
Lemma bad_offset_progression_witness :
  validated (second_slot x08 x04) /\
  offsets (second_slot x08 x04) = Some [8] /\
  fails_with (decodeOffset false (second_slot x08 x04)).2 ErrBadOffsetProgression.
Proof.
  split; [apply second_slot_validated|]. split; [evaluate|].
  apply (bad_offset_progression_iff (second_slot x08 x04)
           (readBuf 4 (second_slot x08 x04)).1 false [8]
           (second_slot_validated x04) ltac:(evaluate) ltac:(evaluate)).
  evaluate.
Defined.

(** C3, as stated, fails: the first offset 100 differs from the head size 4,
    yet the error is not a first offset mismatch (100 is beyond the 8 bytes
    of the container, and that is checked first). *)
Lemma first_offset_100_is_no_mismatch :
  ~ (fails_with (decodeOffset false offset_100).2 ErrFirstOffsetMismatch <->
     Uint32 (take 4 (in_ offset_100)) <> offset offset_100).
Proof.
  intros [_ H]. destruct H as [a E].
  - vm_compute. discriminate.
  - vm_compute in E. discriminate.
Qed.

(** The first offset 4 in a container of head size 8 is a mismatch. *)
Lemma first_offset_mismatch_witness :
  offsets (two_slots x04 x0a) = None /\
  fails_with (decodeOffset false (two_slots x04 x0a)).2 ErrFirstOffsetMismatch.
Proof.
  split; [evaluate|].
  apply (first_offset_mismatch_iff (two_slots x04 x0a)
           (readBuf 4 (two_slots x04 x0a)).1 ltac:(evaluate) ltac:(evaluate)).
  vm_compute. split; discriminate.
Defined.

(** The offset 100 in a container of 8 bytes. *)
Lemma offset_beyond_capacity_witness :
  err offset_100 = None /\
  length offset_100 < Uint32 (take 4 (buf (readBuf 4 offset_100).1)) /\
  fails_with
    (err (DecodeDynamicBytes offset_100 (BlobVar 1%positive) 16))
    ErrOffsetBeyondCapacity.
Proof.
  assert (C : length offset_100 < Uint32 (take 4 (buf (readBuf 4 offset_100).1)))
    by (vm_compute; reflexivity).
  split; [evaluate|]. split; [exact C|].
  destruct (@offset_beyond_capacity Withdrawal _ offset_100
              (readBuf 4 offset_100).1 false ∅ ltac:(evaluate) ltac:(evaluate) C)
    as (_ & D & _).
  rewrite D. simpl. by eexists.
Defined.

(** C5, as stated, fails: the counter offset 5 is not a multiple of four,
    yet in a region of four bytes the error is an offset beyond capacity,
    not a bad counter offset. *)
Lemma counter_offset_beyond_region :
  retrieveSize (dec (slice_of_blobs [x05; x00; x00; x00])) =
    Ok (4, set_offsets (Some []) (dec (slice_of_blobs [x05; x00; x00; x00]))) /\
  Uint32 (take 4 (in_ (dec (slice_of_blobs [x05; x00; x00; x00])))) = 5 /\
  5 mod 4 <> 0 /\
  exists s',
    decodeSliceOfDynamicBytes (call 1) 1%positive 16 16
      (slice_of_blobs [x05; x00; x00; x00]) = Ok s' /\
    err (dec s') = Some (Errorf ErrOffsetBeyondCapacity [5; 4]) /\
    ~ fails_with (err (dec s')) ErrBadCounterOffset.
Proof.
  split; [evaluate|]. split; [evaluate|]. split; [discriminate|].
  eexists. split; [evaluate|]. split; [evaluate|].
  simpl. rewrite fails_with_Some. discriminate.
Qed.

(** The counter offset 4 in a region of eight bytes: one item. *)
Lemma counter_offset_items_witness :
  err (dec (slice_of_blobs [x04; x00; x00; x00; x61; x62; x63; x64])) = None /\
  exists s' bs',
    decodeSliceOfDynamicBytes (call 1) 1%positive 16 16
      (slice_of_blobs [x04; x00; x00; x00; x61; x62; x63; x64]) = Ok s' /\
    heap s' !! 1%positive = Some (VBlobs bs') /\
    Z.of_nat (len bs') = 1.
Proof.
  split; [evaluate|].
  set (s := slice_of_blobs [x04; x00; x00; x00; x61; x62; x63; x64]).
  set (popped := set_offsets (Some []) (dec s)).
  destruct (counter_offset_items s 8 popped
              (decodeOffset true (descendIntoDynamic 8 popped)).1 0
              1%positive 16 16 ltac:(evaluate) ltac:(evaluate) ltac:(lia) ltac:(evaluate))
    as (_ & _ & T).
  apply (T ltac:(evaluate) ltac:(vm_compute; discriminate) ltac:(vm_compute; discriminate)
           (Slice [] 0) ltac:(evaluate)).
Defined.

(** C6, as stated, fails: a region of no bytes is shorter than four bytes,
    and the decoder returns without an error. *)
Lemma empty_region_is_no_error :
  retrieveSize (dec (slice_of_blobs [])) =
    Ok (0, set_offsets (Some []) (dec (slice_of_blobs []))) /\
  0 < 4 /\
  exists s',
    decodeSliceOfDynamicBytes (call 1) 1%positive 16 16 (slice_of_blobs []) =
      Ok s' /\
    err (dec s') = None /\
    ~ fails_with (err (dec s')) ErrShortCounterOffset.
Proof.
  split; [evaluate|]. split; [lia|].
  eexists. split; [evaluate|]. split; [evaluate|].
  apply fails_with_None.
Qed.

(** A region of two bytes. *)
Lemma short_counter_offset_witness :
  err (dec (slice_of_blobs [x00; x00])) = None /\
  retrieveSize (dec (slice_of_blobs [x00; x00])) =
    Ok (2, set_offsets (Some []) (dec (slice_of_blobs [x00; x00]))) /\
  decodeSliceOfDynamicBytes (call 1) 1%positive 16 16
    (slice_of_blobs [x00; x00]) =
    Ok (State
          (set_err (Some (Errorf ErrShortCounterOffset [2]))
             (set_offsets (Some []) (dec (slice_of_blobs [x00; x00]))))
          (heap (slice_of_blobs [x00; x00]))).
Proof.
  split; [evaluate|]. split; [evaluate|].
  apply (short_counter_offset (slice_of_blobs [x00; x00]) 2 _ (call 1)
           1%positive 16 16 ltac:(evaluate) ltac:(evaluate)).
  lia.
Defined.


(** A latched decoder with input left: nothing is read. *)
Lemma latched_is_noop_witness :
  err halted <> None /\
  DecodeUint64 halted 7 = (halted, 7) /\
  DecodeDynamicBytes halted (BlobVar 1%positive) 16 = halted /\
  decodeSliceOfStaticObjects 1%positive 16
    (State halted ({[ 1%positive := VObjects (Slice [] 0) ]}
                   : gmap loc (@value Withdrawal))) =
    Ok (State halted {[ 1%positive := VObjects (Slice [] 0) ]}).
Proof.
  assert (E : err halted <> None) by discriminate.
  destruct (latched_is_noop halted
              ({[ 1%positive := VObjects (Slice [] 0) ]}
               : gmap loc (@value Withdrawal)) (call 1) E)
    as (A & _ & _ & _ & B & _ & _ & _ & _ & _ & _ & C).
  split; [exact E|]. split; [apply A|]. split; [apply B|]. apply C.
Defined.

(** An empty region decoded into a slice: the heap is the one before. *)
Lemma empty_region_keeps_slice_witness :
  err (dec (slice_of_blobs [])) = None /\
  retrieveSize (dec (slice_of_blobs [])) =
    Ok (0, set_offsets (Some []) (dec (slice_of_blobs []))) /\
  decodeSliceOfDynamicBytes (call 1) 1%positive 16 16 (slice_of_blobs []) =
    Ok (State (set_offsets (Some []) (dec (slice_of_blobs [])))
          (heap (slice_of_blobs []))).
Proof.
  split; [evaluate|]. split; [evaluate|].
  destruct (empty_region_keeps_slice (slice_of_blobs []) _ (call 1)
              ltac:(evaluate) ltac:(evaluate)) as (_ & _ & C & _).
  apply C.
Defined.

(** The queue [8; 10] in a container of 12 bytes. *)
Lemma region_length_no_wrap_witness :
  draining (tail_next x08 x0a) /\
  offsets (tail_next x08 x0a) = Some [8; 10] /\
  retrieveSize (tail_next x08 x0a) =
    Ok (2, set_offsets (Some [10]) (tail_next x08 x0a)) /\
  0 <= 2 <= 12.
Proof.
  assert (D : draining (tail_next x08 x0a)).
  { apply draining_start, tail_next_validated. }
  destruct (region_length_no_wrap (tail_next x08 x0a) 8 [10] D ltac:(evaluate))
    as (P & B & _).
  split; [exact D|]. split; [evaluate|]. split; [exact P|exact B].
Defined.

(** A counter offset of zero passes every check of
    [decodeSliceOfDynamicBytes]; the closure queued for the first item then
    indexes a slice of no items. *)
Example zero_counter_offset_panics :
  decodeSliceOfDynamicBytes (call 1) 1%positive 16 16
    (slice_of_blobs [x00; x00; x00; x00]) = Panic IndexOutOfRange.
Proof. evaluate. Qed.


(** * More of the decoder

    ** Reads of static fields *)

Lemma ReadFull_enough r p :
  (List.length p <= List.length r)%nat ->
  ReadFull r p = (take (List.length p) r, drop (List.length p) r, None).
Proof.
  intros H. unfold ReadFull.
  assert (L : List.length (take (List.length p) r) = List.length p).
  { rewrite length_take. lia. }
  rewrite L, Nat.eqb_refl, drop_all, app_nil_r. done.
Qed.

Lemma ReadFull_short r p :
  (List.length r < List.length p)%nat ->
  ReadFull r p =
    (r ++ drop (List.length r) p, [],
     Some (Errorf (match r with [] => EOF | _ => ErrUnexpectedEOF end) [])).
Proof.
  intros H. unfold ReadFull.
  rewrite take_ge, (drop_ge r) by lia.
  destruct (List.length r =? List.length p)%nat eqn:C.
  { apply Nat.eqb_eq in C. lia. }
  by destruct r.
Qed.

Lemma readBuf_enough k d :
  (k <= List.length (buf d))%nat ->
  (k <= List.length (in_ d))%nat ->
  readBuf k d =
    (set_buf (take k (in_ d) ++ drop k (buf d)) (set_in (drop k (in_ d)) d), None).
Proof.
  intros B I. unfold readBuf.
  assert (L : List.length (take k (buf d)) = k) by (rewrite length_take; lia).
  rewrite ReadFull_enough by lia. by rewrite L.
Qed.

Lemma take_take_app {A} k (l m : list A) :
  (k <= List.length l)%nat -> take k (take k l ++ m) = take k l.
Proof.
  intros H. rewrite take_app_le by (rewrite length_take; lia).
  rewrite take_take. f_equal. lia.
Qed.

Lemma take_drop_take {A} k i m (l : list A) :
  (i + k <= m)%nat -> take k (drop i (take m l)) = take k (drop i l).
Proof.
  intros H. rewrite !take_drop_commute, take_take. do 2 f_equal. lia.
Qed.

Lemma byte_Z_range b : 0 <= byte_Z b < 256.
Proof.
  unfold byte_Z. pose proof (Byte.to_N_bounded b). lia.
Qed.

Lemma Uint64_range b : 0 <= Uint64 b < 2 ^ 64.
Proof.
  assert (Hor : forall a c, 0 <= a < 2 ^ 64 -> 0 <= c < 2 ^ 64 ->
                            0 <= Z.lor a c < 2 ^ 64).
  { intros a c Ha Hc. split; [apply Z.lor_nonneg; lia|].
    destruct (Z.eq_dec (Z.lor a c) 0) as [->|N]; [lia|].
    apply Z.log2_lt_pow2; [pose proof (proj2 (Z.lor_nonneg a c)); lia|].
    rewrite Z.log2_lor by lia.
    assert (Hl : forall x, 0 <= x < 2 ^ 64 -> Z.log2 x < 64).
    { intros x Hx. destruct (Z.eq_dec x 0) as [->|]; [done|].
      apply Z.log2_lt_pow2; lia. }
    specialize (Hl a Ha) as La. specialize (Hl c Hc) as Lc. lia. }
  unfold Uint64, at_.
  repeat (apply Hor; [|]);
    rewrite ?Z.shiftl_mul_pow2 by lia;
    match goal with
    | |- context [byte_Z ?x] => pose proof (byte_Z_range x); lia
    end.
Qed.

Lemma DecodeStaticBytes_enough d bytes :
  err d = None ->
  (List.length bytes <= List.length (in_ d))%nat ->
  DecodeStaticBytes d bytes =
    (set_err None (set_in (drop (List.length bytes) (in_ d)) d),
     take (List.length bytes) (in_ d)).
Proof.
  intros E H. unfold DecodeStaticBytes, latched. rewrite E.
  by rewrite ReadFull_enough.
Qed.

Lemma DecodeUint64_enough d n :
  err d = None ->
  (8 <= List.length (buf d))%nat ->
  (8 <= List.length (in_ d))%nat ->
  DecodeUint64 d n =
    (set_err None
       (set_buf (take 8 (in_ d) ++ drop 8 (buf d)) (set_in (drop 8 (in_ d)) d)),
     Uint64 (take 8 (in_ d))).
Proof.
  intros E B I. unfold DecodeUint64, latched. rewrite E.
  rewrite readBuf_enough by done. simpl. by rewrite take_take_app.
Qed.

(** X1. [DecodeStaticBytes] on an unlatched decoder: with enough input the
    target is the next [len(bytes)] bytes and the input advances by as
    many; with less, what is left is copied over the front of the target,
    the rest of the target stays, the input is exhausted, and the error is
    [EOF] when nothing was left and [ErrUnexpectedEOF] otherwise. *)
Theorem DecodeStaticBytes_exact_or_short (d : Decoder) (bytes : list byte) :
  err d = None ->
  ((List.length bytes <= List.length (in_ d))%nat ->
   DecodeStaticBytes d bytes =
     (set_err None (set_in (drop (List.length bytes) (in_ d)) d),
      take (List.length bytes) (in_ d))) /\
  ((List.length (in_ d) < List.length bytes)%nat ->
   DecodeStaticBytes d bytes =
     (set_err
        (Some (Errorf (match in_ d with [] => EOF | _ => ErrUnexpectedEOF end) []))
        (set_in [] d),
      in_ d ++ drop (List.length (in_ d)) bytes)).
Proof.
  intros E. split; intros H.
  - by apply DecodeStaticBytes_enough.
  - unfold DecodeStaticBytes, latched. rewrite E. by rewrite ReadFull_short.
Qed.

(** X2. [DecodeUint64] on an unlatched decoder with eight bytes of input:
    the target is the little-endian value of those bytes, below 2^64, the
    input advances by eight and no error is latched. With fewer bytes the
    error is latched and the target is overwritten all the same, with the
    bytes that were read followed by what the conversion buffer held. *)
Theorem DecodeUint64_little_endian (d : Decoder) (n : Z) :
  err d = None ->
  (8 <= List.length (buf d))%nat ->
  ((8 <= List.length (in_ d))%nat ->
   (DecodeUint64 d n).2 = Uint64 (take 8 (in_ d)) /\
   0 <= (DecodeUint64 d n).2 < 2 ^ 64 /\
   in_ (DecodeUint64 d n).1 = drop 8 (in_ d) /\
   err (DecodeUint64 d n).1 = None) /\
  ((List.length (in_ d) < 8)%nat ->
   (DecodeUint64 d n).2 =
     Uint64 (in_ d ++ drop (List.length (in_ d)) (take 8 (buf d))) /\
   in_ (DecodeUint64 d n).1 = [] /\
   err (DecodeUint64 d n).1 =
     Some (Errorf (match in_ d with [] => EOF | _ => ErrUnexpectedEOF end) [])).
Proof.
  intros E B. split; intros I.
  - rewrite DecodeUint64_enough by done. simpl.
    split; [done|]. split; [apply Uint64_range|done].
  - unfold DecodeUint64, latched, readBuf. rewrite E.
    assert (L : List.length (take 8 (buf d)) = 8%nat) by (rewrite length_take; lia).
    rewrite ReadFull_short by lia. simpl. split; [|done].
    f_equal. rewrite take_app_length'; [done|].
    rewrite length_app, length_drop. lia.
Qed.

(** X3. [DecodeUint256] on an unlatched decoder with thirty-two bytes of
    input: whatever the target was (nil or not), it is not nil afterwards
    and holds what [UnmarshalSSZ] makes of exactly the next thirty-two bytes
    of the input, whatever the conversion buffer held; the input advances by
    thirty-two and no error is latched. *)
Theorem DecodeUint256_limbs (d : Decoder) (n : option (list Z)) :
  err d = None ->
  (32 <= List.length (buf d))%nat ->
  (32 <= List.length (in_ d))%nat ->
  (DecodeUint256 d n).2 = Some (UnmarshalSSZ (take 32 (in_ d))) /\
  in_ (DecodeUint256 d n).1 = drop 32 (in_ d) /\
  err (DecodeUint256 d n).1 = None.
Proof.
  intros E B I. unfold DecodeUint256, latched. rewrite E.
  rewrite readBuf_enough by done. simpl. by rewrite take_take_app.
Qed.

Lemma take_add_split {A} n m (l : list A) :
  take (n + m) l = take n l ++ take m (drop n l).
Proof.
  revert l. induction n as [|n IH]; intros [|x l]; simpl; try done.
  - by rewrite take_nil.
  - by rewrite IH.
Qed.

Lemma decodeEach_enough bytes d :
  err d = None ->
  (List.length (concat bytes) <= List.length (in_ d))%nat ->
  exists d' bytes',
    decodeEach d bytes = (d', bytes') /\
    err d' = None /\
    in_ d' = drop (List.length (concat bytes)) (in_ d) /\
    concat bytes' = take (List.length (concat bytes)) (in_ d) /\
    Forall2 (fun a b => List.length a = List.length b) bytes' bytes /\
    same_coordination d d'.
Proof.
  revert d. induction bytes as [|b rest IH]; intros d E H; simpl in *.
  { exists d, []. by rewrite drop_0, take_0. }
  rewrite length_app in H.
  rewrite DecodeStaticBytes_enough by (done || lia).
  destruct (IH (set_err None (set_in (drop (List.length b) (in_ d)) d)))
    as (d' & rest' & -> & E' & I' & C' & F' & S'); [done|..].
  { simpl. rewrite length_drop. lia. }
  simpl in *. eexists _, _. split; [done|]. split; [done|].
  rewrite length_app, I', drop_drop, take_add_split. simpl. rewrite C'.
  repeat split; try done; try apply S'.
  constructor; [|done]. rewrite length_take. lia.
Qed.

(** X4. [DecodeArrayOfStaticBytes] on an unlatched decoder with enough
    input for every item: the items, one after the other, are the next
    bytes of the input; each keeps its length; the input advances by their
    total length; no error is latched and nothing else changes. *)
Theorem DecodeArrayOfStaticBytes_chunks (d : Decoder) (bytes : list (list byte)) :
  err d = None ->
  (List.length (concat bytes) <= List.length (in_ d))%nat ->
  exists d' bytes',
    DecodeArrayOfStaticBytes d bytes = (d', bytes') /\
    err d' = None /\
    in_ d' = drop (List.length (concat bytes)) (in_ d) /\
    concat bytes' = take (List.length (concat bytes)) (in_ d) /\
    Forall2 (fun a b => List.length a = List.length b) bytes' bytes /\
    same_coordination d d'.
Proof.
  intros E H. unfold DecodeArrayOfStaticBytes, latched. rewrite E.
  by apply decodeEach_enough.
Qed.

Lemma Withdrawal_DecodeSSZ_enough (w : Withdrawal) (d : Decoder) :
  err d = None ->
  (8 <= List.length (buf d))%nat ->
  List.length (Address w) = 20%nat ->
  (44 <= List.length (in_ d))%nat ->
  exists d',
    DecodeSSZ w d =
      Ok (mkWithdrawal (Uint64 (take 8 (in_ d)))
            (Uint64 (take 8 (drop 8 (in_ d))))
            (take 20 (drop 16 (in_ d)))
            (Uint64 (take 8 (drop 36 (in_ d)))), d') /\
    err d' = None /\
    in_ d' = drop 44 (in_ d) /\
    List.length (buf d') = List.length (buf d) /\
    same_coordination d d'.
Proof.
  intros E B A I. unfold DecodeSSZ, Withdrawal_object.
  rewrite DecodeUint64_enough by (done || lia). cbv beta iota zeta.
  rewrite DecodeUint64_enough;
    [|done|simpl; rewrite length_app, length_take, length_drop; lia
     |simpl; rewrite length_drop; lia].
  cbv beta iota zeta.
  rewrite DecodeStaticBytes_enough;
    [|done|simpl; rewrite A, !length_drop; lia].
  cbv beta iota zeta.
  rewrite DecodeUint64_enough;
    [|done|simpl; rewrite !length_app, !length_take, !length_drop; lia
     |simpl; rewrite A, !length_drop; lia].
  simpl. rewrite A, !drop_drop. simpl.
  eexists. split; [done|]. simpl. split; [done|]. split; [done|].
  split; [|done].
  repeat first [rewrite length_app|rewrite length_take|rewrite length_drop].
  lia.
Qed.

(** X5. The [DecodeSSZ] of [Withdrawal] on an unlatched decoder with 44
    bytes of input: it reads exactly [SizeSSZ] bytes, latches no error,
    leaves the coordination state alone, and the four fields are the
    little-endian index and validator, the twenty bytes of the address and
    the little-endian amount, in that order. *)
Theorem Withdrawal_DecodeSSZ_reads_SizeSSZ (w : Withdrawal) (d : Decoder) :
  err d = None ->
  (8 <= List.length (buf d))%nat ->
  List.length (Address w) = 20%nat ->
  (44 <= List.length (in_ d))%nat ->
  exists w' d',
    DecodeSSZ w d = Ok (w', d') /\
    err d' = None /\
    in_ d' = drop (Z.to_nat (@SizeSSZ Withdrawal _)) (in_ d) /\
    same_coordination d d' /\
    Index w' = Uint64 (take 8 (in_ d)) /\
    Validator w' = Uint64 (take 8 (drop 8 (in_ d))) /\
    Address w' = take 20 (drop 16 (in_ d)) /\
    Amount w' = Uint64 (take 8 (drop 36 (in_ d))).
Proof.
  intros E B A I.
  destruct (Withdrawal_DecodeSSZ_enough w d E B A I)
    as (d' & -> & E' & I' & _ & S').
  eexists _, d'. split; [done|]. split; [done|]. split; [exact I'|].
  split; [exact S'|]. by repeat split.
Qed.

(** ** Offset declarations *)

Lemma offsetThenQueue_outcome a d :
  err d = None ->
  (4 <= List.length (buf d))%nat ->
  queued_or_latched d a (offsetThenQueue a d).
Proof.
  intros E B. unfold offsetThenQueue.
  destruct (decodeOffset false d) as [d1 e] eqn:D.
  destruct (decodeOffset_frame _ _ _ _ D) as (_ & _ & L & Ls & Os & P & Ps).
  assert (I : in_ d1 = drop 4 (in_ d)).
  { unfold decodeOffset, readBuf in D.
    destruct (ReadFull _ _) as [[p r] e'] eqn:R.
    apply ReadFull_length in R as [_ Hr].
    rewrite length_take, Nat.min_l in Hr by lia. subst r.
    destruct e'; simpl in D; repeat case_match; by injection D as <- _. }
  destruct e as [e|]; unfold latched; simpl.
  - destruct (decodeOffset_rejected _ _ _ _ D) as (_ & O & Q).
    repeat split; try done. by left.
  - destruct (decodeOffset_accepted _ _ _ D) as (d0 & R & Hle & _ & _ & ->).
    simpl in *. repeat split; try done. right.
    repeat split; rewrite ?P; try done. apply Uint32_nonneg.
Qed.

Section more_properties.
Context {U : Type} `{!newableObject U}.
Implicit Types (s : @state U) (h : gmap loc (@value U)).

(** X6. An offset declaration on an unlatched decoder takes four bytes off
    the input and either latches an error, queueing nothing and leaving the
    offsets alone, or appends one offset, which is at most the container
    length, and one closure, its own; the length and the stacks stay. A
    slice of static objects whose type is not static latches a dynamic
    object in static slot and reads nothing. *)
Theorem offset_declaration_outcomes (d : Decoder) :
  err d = None ->
  (4 <= List.length (buf d))%nat ->
  (forall blob maxSize,
     queued_or_latched d (PendDynamicBytes blob maxSize)
       (DecodeDynamicBytes d blob maxSize)) /\
  (forall bytes itemSize maxItems,
     queued_or_latched d (PendSliceOfStaticBytes bytes itemSize maxItems)
       (DecodeSliceOfStaticBytes d bytes itemSize maxItems)) /\
  (forall blobs maxItems maxSize,
     queued_or_latched d (PendSliceOfDynamicBytes blobs maxItems maxSize)
       (DecodeSliceOfDynamicBytes d blobs maxItems maxSize)) /\
  (forall objects maxItems,
     StaticSSZ = true ->
     queued_or_latched d (PendSliceOfStaticObjects objects maxItems)
       (DecodeSliceOfStaticObjects d objects maxItems)) /\
  (forall objects maxItems,
     StaticSSZ = false ->
     DecodeSliceOfStaticObjects d objects maxItems =
       set_err (Some (Errorf ErrDynamicObjectInStaticSlot [])) d).
Proof.
  intros E B.
  unfold DecodeDynamicBytes, DecodeSliceOfStaticBytes, DecodeSliceOfDynamicBytes,
    DecodeSliceOfStaticObjects, latched.
  rewrite E. split; [|split; [|split; [|split]]].
  1-3: intros; by apply offsetThenQueue_outcome.
  - intros objects maxItems ->. by apply offsetThenQueue_outcome.
  - by intros objects maxItems ->.
Qed.

(** X7. [OffsetDynamics] followed by [dynamicDone] with nothing queued, and
    [descendIntoDynamic] followed by [ascendFromDynamic], give back the
    decoder they started from, stacks included, except for the dynamic flag
    and the expected offset, which [dynamicDone] does not restore. *)
Theorem stacks_are_restored (d : Decoder) h run (offset0 length0 : Z) :
  dynamicDone run (State (OffsetDynamics offset0 d) h) =
    Ok (State (set_offset (u32 offset0) (set_dyn true d)) h) /\
  ascendFromDynamic run (State (descendIntoDynamic length0 d) h) =
    Ok (State (set_offset 0 (set_dyn true d)) h).
Proof.
  unfold ascendFromDynamic, dynamicDone, descendIntoDynamic, OffsetDynamics.
  repeat (cbn [dec heap runAll bind in_ err dyn buf length lengths offset
               offsets offsetss pend pends set_in set_err set_dyn set_buf
               set_length set_lengths set_offset set_offsets set_offsetss
               set_pend set_pends];
          rewrite ?index_top, ?take_top).
  done.
Qed.

(** ** Tail operations on a well-formed region *)

Lemma expand_cases {A} (zero : A) (b : slice A) (n : Z) :
  exists b1,
    expand zero b n = Ok b1 /\ len b1 = Z.to_nat n /\ (len b1 <= cap b1)%nat /\
    (u32 (Z.of_nat (cap b)) < n -> arr b1 = replicate (Z.to_nat n) zero) /\
    (n <= u32 (Z.of_nat (cap b)) -> arr b1 = arr b).
Proof.
  destruct (expand_ok zero b n) as (b1 & Hb & Hlen & Hcap).
  exists b1. split; [done|]. split; [done|]. split; [done|].
  unfold expand, reslice in Hb.
  destruct (u32 (Z.of_nat (cap b)) <? n) eqn:C.
  - injection Hb as <-. split; [done|lia].
  - destruct (Z.to_nat n <=? cap b)%nat; [|done]. injection Hb as <-.
    split; [lia|done].
Qed.

Lemma elems_with_elems {A} (b : slice A) (l : list A) :
  List.length l = len b -> elems (with_elems b l) = l.
Proof. intros H. unfold elems, with_elems. simpl. by rewrite take_app_length'. Qed.

(** X8. [decodeDynamicBytes] on a region within the cap. The target gets
    the length of the region. Its buffer is kept when its capacity, as a
    [uint32], is at least that length: the capacity and the bytes beyond the
    new length are the old ones. Otherwise the buffer is a fresh one of
    exactly that length. With enough input the target holds the next bytes
    of the input, the input advances past them and no error is latched. *)
Theorem decodeDynamicBytes_fills_target s (size : Z) (popped : Decoder)
    (blob : blob_ptr) (maxSize : Z) (b : slice byte) :
  err (dec s) = None ->
  retrieveSize (dec s) = Ok (size, popped) ->
  size <= maxSize ->
  load_blob blob (heap s) = Ok b ->
  exists s' b',
    decodeDynamicBytes blob maxSize s = Ok s' /\
    load_blob blob (heap s') = Ok b' /\
    len b' = Z.to_nat size /\
    (size <= u32 (Z.of_nat (cap b)) ->
     cap b' = cap b /\
     drop (Z.to_nat size) (arr b') = drop (Z.to_nat size) (arr b)) /\
    (u32 (Z.of_nat (cap b)) < size -> cap b' = Z.to_nat size) /\
    ((Z.to_nat size <= List.length (in_ (dec s)))%nat ->
     elems b' = take (Z.to_nat size) (in_ (dec s)) /\
     in_ (dec s') = drop (Z.to_nat size) (in_ (dec s)) /\
     err (dec s') = None).
Proof.
  intros E P M B. unfold decodeDynamicBytes, latched. rewrite E, P.
  cbn [bind]. destruct (maxSize <? size) eqn:C; [lia|]. rewrite B. cbn [bind].
  destruct (expand_cases x00 b size) as (b1 & -> & Hlen & Hcap & Hnew & Hold).
  cbn [bind].
  destruct (retrieveSize_popped _ _ _ P) as (o0 & rest & _ & ->).
  assert (Le : List.length (elems b1) = Z.to_nat size).
  { rewrite length_elems; done. }
  destruct (DecodeStaticBytes _ (elems b1)) as [d2 bytes] eqn:D.
  pose proof D as D'.
  apply DecodeStaticBytes_reads in D' as (I & Lb & _); [|done].
  destruct (load_store_blob blob b (with_elems b1 bytes) (heap s) B)
    as (h' & -> & Hload).
  cbn [bind]. eexists _, _. split; [done|]. split; [exact Hload|].
  split; [done|]. simpl. rewrite Hlen. split; [|split].
  - intros Hc. specialize (Hold Hc). unfold cap in *. simpl.
    rewrite length_app, length_drop, Lb, Le, Hold.
    split; [rewrite Hold in Hcap; lia|].
    rewrite drop_app_length'; [done|]. by rewrite Lb.
  - intros Hc. specialize (Hnew Hc). unfold cap. simpl.
    rewrite length_app, length_drop, Lb, Le, Hnew, length_replicate. lia.
  - intros Hin. rewrite DecodeStaticBytes_enough in D; [|done|simpl; lia].
    injection D as <- <-. simpl. rewrite Le. split; [|done].
    fold (with_elems b1 (take (Z.to_nat size) (in_ (dec s)))).
    apply elems_with_elems. rewrite length_take. lia.
Qed.

Lemma length_concat_uniform {A} (k : nat) (l : list (list A)) :
  Forall (fun e => List.length e = k) l ->
  List.length (concat l) = (List.length l * k)%nat.
Proof.
  induction 1 as [|e l He _ IH]; [done|]. simpl. rewrite length_app. lia.
Qed.

(** X9. [decodeSliceOfStaticBytes] on a region that is a positive multiple
    of the item size, within the item cap, with the region's bytes in the
    input: the slice gets region length over item size items, each of the
    item size; one after the other they are the bytes of the region; the
    input advances past the region and no error is latched. *)
Theorem decodeSliceOfStaticBytes_items s (size : Z) (popped : Decoder)
    (bytes : loc) (itemSize maxItems : Z) (bs : slice (list byte)) :
  err (dec s) = None ->
  retrieveSize (dec s) = Ok (size, popped) ->
  size <> 0 ->
  0 < itemSize ->
  size mod itemSize = 0 ->
  size / itemSize <= maxItems ->
  heap s !! bytes = Some (VStaticBytes bs) ->
  Forall (fun e => List.length e = Z.to_nat itemSize) (arr bs) ->
  (Z.to_nat size <= List.length (in_ (dec s)))%nat ->
  exists s' bs',
    decodeSliceOfStaticBytes bytes itemSize maxItems s = Ok s' /\
    heap s' !! bytes = Some (VStaticBytes bs') /\
    Z.of_nat (len bs') = size / itemSize /\
    Forall (fun e => List.length e = Z.to_nat itemSize) (elems bs') /\
    concat (elems bs') = take (Z.to_nat size) (in_ (dec s)) /\
    in_ (dec s') = drop (Z.to_nat size) (in_ (dec s)) /\
    err (dec s') = None.
Proof.
  intros E P N0 I0 M C Hb Farr Hin.
  unfold decodeSliceOfStaticBytes, latched. rewrite E, P. cbn [bind].
  destruct (size =? 0) eqn:C0; [lia|].
  destruct (itemSize =? 0) eqn:C1; [lia|]. rewrite M. cbn [negb Z.eqb].
  destruct (maxItems <? size / itemSize) eqn:C2; [lia|].
  unfold load_static. rewrite Hb. cbn [bind].
  destruct (expand_cases (replicate (Z.to_nat itemSize) x00) bs (size / itemSize))
    as (bs1 & -> & Hlen & Hcap & Hnew & Hold).
  cbn [bind].
  destruct (retrieveSize_popped _ _ _ P) as (o0 & rest & Eo & ->).
  assert (S0 : 0 <= size).
  { rewrite (retrieveSize_cons _ _ _ Eo) in P. injection P as <-.
    destruct rest; apply u32_range. }
  assert (F1 : Forall (fun e => List.length e = Z.to_nat itemSize) (elems bs1)).
  { unfold elems. apply Forall_take.
    destruct (Z.lt_ge_cases (u32 (Z.of_nat (cap bs))) (size / itemSize)) as [Hc|Hc].
    - rewrite (Hnew Hc). apply Forall_replicate. by rewrite length_replicate.
    - by rewrite (Hold Hc). }
  assert (Lc : List.length (concat (elems bs1)) = Z.to_nat size).
  { rewrite (length_concat_uniform _ _ F1), length_elems, Hlen by done.
    pose proof (Z.div_mod size itemSize ltac:(lia)).
    assert (0 <= size / itemSize) by (apply Z.div_pos; lia). nia. }
  destruct (decodeEach_enough (elems bs1) (set_offsets (Some rest) (dec s)))
    as (d' & items & -> & E' & I' & C' & F' & _); [done|simpl; lia|].
  simpl in I', C'. rewrite Lc in I', C'.
  eexists _, _. split; [done|]. simpl. rewrite lookup_insert_eq.
  split; [done|]. simpl.
  assert (Li : List.length items = len bs1).
  { apply Forall2_length in F'. rewrite F', length_elems; done. }
  rewrite (elems_with_elems bs1 items Li).
  assert (0 <= size / itemSize) by (apply Z.div_pos; lia).
  split; [lia|]. split; [|done].
  clear -F1 F'. revert F1. induction F' as [|a b la lb Hab _ IH]; intros F1.
  - done.
  - apply Forall_cons in F1 as [Hb F1]. constructor; [congruence|by apply IH].
Qed.

Lemma decodeObjects_total (d : Decoder) (objects : list (option U)) :
  (forall u d, exists u' d', DecodeSSZ u d = Ok (u', d')) ->
  exists d' items,
    decodeObjects d objects = Ok (d', items) /\
    List.length items = List.length objects /\
    Forall is_Some items.
Proof.
  intros T. revert d. induction objects as [|o rest IH]; intros d; simpl.
  { by exists d, []. }
  destruct (T (default new o) d) as (u' & d1 & ->). cbn [bind].
  destruct (IH d1) as (d' & items & -> & L & F). cbn [bind].
  eexists _, _. split; [done|]. simpl. split; [by rewrite L|].
  constructor; [by eexists|done].
Qed.

(** X10. [decodeSliceOfStaticObjects] on a region that is a positive
    multiple of the object size, within the item cap, for an object type
    whose [DecodeSSZ] does not panic: the decoder returns, the slice has
    region length over object size items and none of them is nil. *)
Theorem decodeSliceOfStaticObjects_items s (size : Z) (popped : Decoder)
    (objects : loc) (maxItems : Z) (os : slice (option U)) :
  (forall u d, exists u' d', DecodeSSZ u d = Ok (u', d')) ->
  err (dec s) = None ->
  retrieveSize (dec s) = Ok (size, popped) ->
  size <> 0 ->
  SizeSSZ <> 0 ->
  size mod SizeSSZ = 0 ->
  size / SizeSSZ <= maxItems ->
  heap s !! objects = Some (VObjects os) ->
  exists s' os',
    decodeSliceOfStaticObjects objects maxItems s = Ok s' /\
    heap s' !! objects = Some (VObjects os') /\
    len os' = Z.to_nat (size / SizeSSZ) /\
    Forall is_Some (elems os').
Proof.
  intros T E P N0 I0 M C Hb.
  unfold decodeSliceOfStaticObjects, latched. rewrite E, P. cbn [bind].
  destruct (size =? 0) eqn:C0; [lia|].
  destruct (SizeSSZ =? 0) eqn:C1; [lia|]. rewrite M. cbn [negb Z.eqb].
  destruct (maxItems <? size / SizeSSZ) eqn:C2; [lia|].
  unfold load_objects. rewrite Hb. cbn [bind].
  destruct (expand_ok None os (size / SizeSSZ)) as (os1 & -> & Hlen & Hcap).
  cbn [bind].
  destruct (decodeObjects_total popped (elems os1) T) as (d' & items & -> & L & F).
  cbn [bind]. eexists _, _. split; [done|]. simpl. rewrite lookup_insert_eq.
  split; [done|]. simpl. split; [done|].
  rewrite elems_with_elems; [done|]. rewrite L, length_elems; done.
Qed.

(** X11. A region that is not a multiple of the item size fails with a
    dynamic statics indivisible, for a slice of static byte arrays and for
    a slice of static objects alike, and the heap is as it was. An object
    type of size zero makes the decoder panic on any non-empty region: the
    remainder is taken before anything else. *)
Theorem indivisible_region s (size : Z) (popped : Decoder) :
  err (dec s) = None ->
  retrieveSize (dec s) = Ok (size, popped) ->
  size <> 0 ->
  (forall bytes itemSize maxItems,
     itemSize <> 0 ->
     size mod itemSize <> 0 ->
     decodeSliceOfStaticBytes bytes itemSize maxItems s =
       Ok (State
             (set_err (Some (Errorf ErrDynamicStaticsIndivisible [size; itemSize]))
                popped)
             (heap s))) /\
  (forall objects maxItems,
     SizeSSZ <> 0 ->
     size mod SizeSSZ <> 0 ->
     decodeSliceOfStaticObjects objects maxItems s =
       Ok (State
             (set_err (Some (Errorf ErrDynamicStaticsIndivisible [size; SizeSSZ]))
                popped)
             (heap s))) /\
  (forall objects maxItems,
     SizeSSZ = 0 ->
     decodeSliceOfStaticObjects objects maxItems s = Panic DivideByZero).
Proof.
  intros E P N0.
  unfold decodeSliceOfStaticBytes, decodeSliceOfStaticObjects, latched.
  rewrite E, P. cbn [bind]. destruct (size =? 0) eqn:C0; [lia|].
  split; [|split].
  - intros bytes itemSize maxItems I0 M.
    destruct (itemSize =? 0) eqn:C1; [lia|].
    by destruct (size mod itemSize =? 0) eqn:C2; [lia|].
  - intros objects maxItems I0 M.
    destruct (SizeSSZ =? 0) eqn:C1; [lia|].
    by destruct (size mod SizeSSZ =? 0) eqn:C2; [lia|].
  - intros objects maxItems ->. done.
Qed.

(** ** The region of a slice of blobs *)

Lemma decodeSliceOfDynamicBytes_region run s size popped blobs maxItems maxSize :
  err (dec s) = None ->
  retrieveSize (dec s) = Ok (size, popped) ->
  4 <= size ->
  decodeSliceOfDynamicBytes run blobs maxItems maxSize s =
    let* s1 := decodeCounterAndQueue blobs maxItems maxSize
                 (State (descendIntoDynamic size popped) (heap s)) in
    ascendFromDynamic run s1.
Proof.
  intros E P S4. unfold decodeSliceOfDynamicBytes, latched. rewrite E, P.
  cbn [bind]. destruct (size =? 0) eqn:C0; [lia|].
  by destruct (size <? 4) eqn:C4; [lia|].
Qed.

(** Leaving a region in which nothing is queued. *)
Lemma ascend_restores run size popped d2 h :
  lengths d2 = lengths (descendIntoDynamic size popped) ->
  pends d2 = pends (descendIntoDynamic size popped) ->
  offsetss d2 = offsetss (descendIntoDynamic size popped) ->
  pend d2 = [] ->
  exists d',
    ascendFromDynamic run (State d2 h) = Ok (State d' h) /\
    err d' = err d2 /\ restored popped d'.
Proof.
  intros L Ps Os Pe.
  destruct (ascendFromDynamic_pops run (State d2 h) (State d2 h)
              (lengths popped) (length popped) (pends popped) (pend popped)
              (offsetss popped) (offsets popped))
    as (d' & R & E & Hl & Hls & Hp & Hps & Ho & Hos); simpl; try done.
  - by rewrite Pe.
  - exists d'. split; [done|]. split; [done|]. by repeat split.
Qed.

Lemma empty_region popped s :
  err (dec s) = None ->
  retrieveSize (dec s) = Ok (0, popped) ->
  (forall bytes itemSize maxItems,
     decodeSliceOfStaticBytes bytes itemSize maxItems s =
       Ok (State popped (heap s))) /\
  (forall objects maxItems,
     decodeSliceOfStaticObjects objects maxItems s = Ok (State popped (heap s))) /\
  (forall run blobs maxItems maxSize,
     decodeSliceOfDynamicBytes run blobs maxItems maxSize s =
       Ok (State popped (heap s))).
Proof.
  intros E P.
  unfold decodeSliceOfStaticBytes, decodeSliceOfStaticObjects,
    decodeSliceOfDynamicBytes, latched.
  rewrite E, P. by repeat split.
Qed.

Lemma short_region s size popped run blobs maxItems maxSize :
  err (dec s) = None ->
  retrieveSize (dec s) = Ok (size, popped) ->
  0 < size < 4 ->
  decodeSliceOfDynamicBytes run blobs maxItems maxSize s =
    Ok (State (set_err (Some (Errorf ErrShortCounterOffset [size])) popped)
          (heap s)).
Proof.
  intros E P B. unfold decodeSliceOfDynamicBytes, latched. rewrite E, P.
  cbn [bind]. destruct (size =? 0) eqn:C0; [lia|].
  by destruct (size <? 4) eqn:C4; [|lia].
Qed.

(** The counter offset is accepted, a multiple of four and within the cap:
    what [decodeCounterAndQueue] leaves, and what the deferred drain makes
    of it when there is at least one item. *)
Lemma counted_region_returns fuel size popped counted blobs maxItems maxSize h bs :
  decodeOffset true (descendIntoDynamic size popped) = (counted, None) ->
  offset counted mod 4 = 0 ->
  offset counted / 4 <= maxItems ->
  h !! blobs = Some (VBlobs bs) ->
  (offset counted = 0 ->
   (let* s1 := decodeCounterAndQueue blobs maxItems maxSize
                 (State (descendIntoDynamic size popped) h) in
    ascendFromDynamic (call (S fuel)) s1) = Panic IndexOutOfRange) /\
  (offset counted <> 0 ->
   exists d' h',
     (let* s1 := decodeCounterAndQueue blobs maxItems maxSize
                   (State (descendIntoDynamic size popped) h) in
      ascendFromDynamic (call (S fuel)) s1) = Ok (State d' h') /\
     restored popped d').
Proof.
  intros D M C Hbs.
  assert (Hshift : Z.shiftr (offset counted) 2 = offset counted / 4).
  { by rewrite Z.shiftr_div_pow2. }
  destruct (decodeOffset_accepted _ _ _ D) as (d1 & R & _ & _ & _ & Hc).
  destruct (decodeOffset_frame _ _ _ _ D) as (_ & _ & _ & L & O & Pe & Ps).
  destruct (descendIntoDynamic_fields size popped)
    as (_ & _ & L' & _ & Q' & O' & Pe' & Ps' & _).
  cbv zeta in *.
  assert (H0 : 0 <= offset counted).
  { rewrite Hc. simpl. apply Uint32_nonneg. }
  unfold decodeCounterAndQueue. cbn [dec heap]. rewrite D, Hshift, M.
  cbn [bind negb Z.eqb].
  destruct (maxItems <? offset counted / 4) eqn:C'; [lia|].
  unfold load_blobs. rewrite Hbs. cbn [bind].
  destruct (expand_ok (Slice [] 0) bs (offset counted / 4))
    as (bs1 & -> & Hlen & Hcap).
  cbn [bind]. split.
  - intros Z0. rewrite Z0 in *. change (0 / 4) with 0 in *. simpl in Hlen.
    change (seq 1 (Z.to_nat 0 - 1)) with (@nil nat).
    unfold ascendFromDynamic, dynamicDone. rewrite Pe, Pe'.
    cbn [foldl dec heap pend set_pend app runAll bind]. cbn [call].
    unfold load_blobs. cbn [heap]. rewrite lookup_insert_eq. cbn [bind].
    by rewrite Hlen.
  - intros N0. set (n := Z.to_nat (offset counted / 4)) in *.
    assert (Hn : (0 < n)%nat).
    { pose proof (Z.div_mod (offset counted) 4 ltac:(lia)). unfold n. lia. }
    set (d3 := set_pend (pend counted ++ [PendFirstBlob blobs maxSize]) counted).
    set (d4 := foldl _ d3 _).
    assert (Q4 : queue_inv blobs n maxSize (lengths popped ++ [length popped])
                   (pends popped ++ [pend popped])
                   (offsetss popped ++ [offsets popped]) (pend d4) d4).
    { apply queue_loop.
      - split.
        { simpl. rewrite Pe, Pe'. apply Forall_singleton. by left. }
        split; [|by rewrite <- L', <- Ps', <- O'].
        intros _. simpl. rewrite Pe, Pe', Hc. simpl. lia.
      - apply Forall_forall. intros i Hi. apply elem_of_seq in Hi. lia. }
    destruct (drain_blobs fuel blobs n maxSize _ _ _ (pend d4)
                (State d4 (<[blobs := VBlobs bs1]> h)) Hn Q4)
      as (s' & Run & _ & Ls & Pss & Os).
    { exists bs1. simpl. rewrite lookup_insert_eq.
      split; [done|]. split; [done|]. by rewrite <- Hlen. }
    destruct (ascendFromDynamic_pops (call (S fuel))
                (State d4 (<[blobs := VBlobs bs1]> h)) s'
                _ _ _ _ _ _ Run Ls Pss Os)
      as (d' & -> & _ & Hl & Hls & Hp & Hps & Ho & Hos).
    exists d', (heap s'). split; [done|]. by repeat split.
Qed.

(** X12. A counter offset of zero in a region of at least four bytes passes
    every check of [decodeSliceOfDynamicBytes] (it is within the region, a
    multiple of four, and zero items are within any cap); the closure
    queued for the first item then takes the address of element 0 of a
    slice of no items, and the decoder panics instead of latching an
    error. *)
Theorem zero_counter_offset_always_panics s (size : Z) (popped counted : Decoder)
    (fuel : nat) blobs maxItems maxSize bs :
  err (dec s) = None ->
  retrieveSize (dec s) = Ok (size, popped) ->
  4 <= size ->
  decodeOffset true (descendIntoDynamic size popped) = (counted, None) ->
  offset counted = 0 ->
  0 <= maxItems ->
  heap s !! blobs = Some (VBlobs bs) ->
  decodeSliceOfDynamicBytes (call (S fuel)) blobs maxItems maxSize s =
    Panic IndexOutOfRange.
Proof.
  intros E P S4 D Z0 M Hbs.
  rewrite (decodeSliceOfDynamicBytes_region _ _ _ _ _ _ _ E P S4).
  apply (counted_region_returns fuel size popped counted blobs maxItems maxSize
           (heap s) bs D); try done; rewrite Z0; done.
Qed.

(** The ways [decodeCounterAndQueue] stops before it queues anything. *)
Lemma decodeCounterAndQueue_stops blobs maxItems maxSize d0 counted e h :
  decodeOffset true d0 = (counted, e) ->
  (forall e', e = Some e' ->
     decodeCounterAndQueue blobs maxItems maxSize (State d0 h) =
       Ok (State (set_err (Some e') counted) h)) /\
  (e = None -> offset counted mod 4 <> 0 ->
     exists e',
       decodeCounterAndQueue blobs maxItems maxSize (State d0 h) =
         Ok (State (set_err (Some e') counted) h)) /\
  (e = None -> offset counted mod 4 = 0 -> maxItems < offset counted / 4 ->
     exists e',
       decodeCounterAndQueue blobs maxItems maxSize (State d0 h) =
         Ok (State (set_err (Some e') counted) h)) /\
  (e = None -> offset counted mod 4 = 0 -> offset counted / 4 <= maxItems ->
     (forall bs, h !! blobs <> Some (VBlobs bs)) ->
     decodeCounterAndQueue blobs maxItems maxSize (State d0 h) =
       Panic NilDereference).
Proof.
  intros D. unfold decodeCounterAndQueue. cbn [dec heap]. rewrite D.
  rewrite Z.shiftr_div_pow2 by lia. change (2 ^ 2) with 4.
  split; [|split; [|split]].
  - by intros e' ->.
  - intros -> M. destruct (offset counted mod 4 =? 0) eqn:C; [lia|].
    by eexists.
  - intros -> M C. rewrite M. cbn [negb Z.eqb].
    destruct (maxItems <? offset counted / 4) eqn:C'; [|lia]. by eexists.
  - intros -> M C N. rewrite M. cbn [negb Z.eqb].
    destruct (maxItems <? offset counted / 4) eqn:C'; [lia|].
    unfold load_blobs. destruct (h !! blobs) as [[|bs| |]|] eqn:Hbs; try done.
    by destruct (N bs).
Qed.

(** X13. Whenever [decodeSliceOfDynamicBytes] returns, on success or with
    an error latched inside the region, the enclosing container is back:
    its length, its queue of offsets without the front one, its queue of
    closures and the three stacks are those from before the region. (The
    last offset is not restored.) In particular a draining decoder is still
    draining. *)
Theorem decodeSliceOfDynamicBytes_restores s s' (fuel : nat)
    blobs maxItems maxSize :
  err (dec s) = None ->
  decodeSliceOfDynamicBytes (call (S fuel)) blobs maxItems maxSize s = Ok s' ->
  exists size popped,
    retrieveSize (dec s) = Ok (size, popped) /\
    restored popped (dec s') /\
    (draining (dec s) -> draining (dec s')).
Proof.
  intros E R.
  destruct (retrieveSize (dec s)) as [[size popped]| |] eqn:P; cycle 1.
  { unfold decodeSliceOfDynamicBytes, latched in R. by rewrite E, P in R. }
  { unfold decodeSliceOfDynamicBytes, latched in R. by rewrite E, P in R. }
  exists size, popped. split; [done|].
  assert (Hres : restored popped (dec s')); cycle 1.
  { split; [done|]. intros Dr. destruct Hres as (Hl & _ & Ho & _).
    apply (draining_frame popped); [by eapply draining_pop|done..]. }
  destruct (Z.lt_ge_cases size 4) as [S4|S4].
  { destruct (Z.eq_dec size 0) as [->|N0].
    - destruct (empty_region popped s E P) as (_ & _ & H).
      rewrite H in R. injection R as <-. by repeat split.
    - assert (0 <= size).
      { destruct (retrieveSize_popped _ _ _ P) as (o0 & rest & Eo & _).
        rewrite (retrieveSize_cons _ _ _ Eo) in P. injection P as <- _.
        destruct rest; apply u32_range. }
      rewrite (short_region s size popped (call (S fuel)) blobs maxItems maxSize
                 E P ltac:(lia)) in R.
      injection R as <-. by repeat split. }
  rewrite (decodeSliceOfDynamicBytes_region _ _ _ _ _ _ _ E P S4) in R.
  destruct (decodeOffset true (descendIntoDynamic size popped))
    as [counted e] eqn:D.
  destruct (decodeOffset_frame _ _ _ _ D) as (_ & _ & _ & L & O & Pe & Ps).
  destruct (decodeCounterAndQueue_stops blobs maxItems maxSize _ _ _ (heap s) D)
    as (Serr & Smod & Smax & Snil).
  assert (Fail : forall e',
    decodeCounterAndQueue blobs maxItems maxSize
      (State (descendIntoDynamic size popped) (heap s)) =
      Ok (State (set_err (Some e') counted) (heap s)) ->
    restored popped (dec s')).
  { intros e' R'. rewrite R' in R. unfold bind in R.
    destruct (ascend_restores (call (S fuel)) size popped
                (set_err (Some e') counted) (heap s))
      as (d' & R2 & _ & Hres); try done.
    rewrite R2 in R. by injection R as <-. }
  destruct e as [e|]; [by apply (Fail e), Serr|].
  destruct (Z.eq_dec (offset counted mod 4) 0) as [M|M]; cycle 1.
  { destruct (Smod eq_refl M) as (e' & He). by apply (Fail e'). }
  destruct (Z.lt_ge_cases maxItems (offset counted / 4)) as [C|C].
  { destruct (Smax eq_refl M C) as (e' & He). by apply (Fail e'). }
  destruct (heap s !! blobs) as [v|] eqn:Hbs; cycle 1.
  { rewrite Snil in R; [done..|]. by intros bs. }
  destruct v as [b|bs|b|b].
  2: { destruct (counted_region_returns fuel size popped counted blobs maxItems
                   maxSize (heap s) bs D M ltac:(lia) Hbs) as [Hz Hnz].
       destruct (Z.eq_dec (offset counted) 0) as [Z0|N0].
       - rewrite (Hz Z0) in R. discriminate.
       - destruct (Hnz N0) as (d' & h' & R2 & Hres). rewrite R2 in R.
         by injection R as <-. }
  all: rewrite Snil in R; [done..|]; by intros bs.
Qed.

End more_properties.

(** ** A container of byte strings, from the head to the drain *)

Lemma DecodeDynamicBytes_accepts d blob maxSize slot r :
  err d = None ->
  (4 <= List.length (buf d))%nat ->
  in_ d = slot ++ r ->
  List.length slot = 4%nat ->
  Uint32 slot <= length d ->
  (offsets d = None -> offset d = Uint32 slot) ->
  (offsets d <> None -> offset d <= Uint32 slot) ->
  let d' := DecodeDynamicBytes d blob maxSize in
  err d' = None /\ in_ d' = r /\ List.length (buf d') = List.length (buf d) /\
  offset d' = Uint32 slot /\
  offsets d' = Some (elements (offsets d) ++ [Uint32 slot]) /\
  pend d' = pend d ++ [PendDynamicBytes blob maxSize] /\
  length d' = length d /\ lengths d' = lengths d /\
  offsetss d' = offsetss d /\ pends d' = pends d.
Proof.
  intros E B I L4 Hle Hfirst Hnext. cbv zeta.
  unfold DecodeDynamicBytes, offsetThenQueue, latched. rewrite E.
  assert (R : readBuf 4 d =
              (set_buf (slot ++ drop 4 (buf d)) (set_in r d), None)).
  { rewrite readBuf_enough; [|done|rewrite I, length_app; lia].
    rewrite I, take_app_length', drop_app_length' by done. done. }
  rewrite (decodeOffset_read _ _ _ R). cbv zeta. cbn [buf set_buf].
  rewrite take_app_length' by done.
  destruct (length d <? Uint32 slot) eqn:C1; [lia|].
  destruct (offsets d) as [l|] eqn:Eo; cbn [is_nil negb andb].
  - specialize (Hnext ltac:(done)).
    destruct (Uint32 slot <? offset d) eqn:C3; [lia|]. simpl.
    rewrite length_app, length_drop, L4. repeat split; try done. lia.
  - rewrite (Hfirst eq_refl), Z.eqb_refl. simpl.
    rewrite length_app, length_drop, L4. repeat split; try done. lia.
Qed.

Lemma head_of_byte_strings (fields : list (loc * Z)) :
  forall (ps slots : list (list byte)) (cur : Z) (d : Decoder) (tail : list byte),
    List.length fields = List.length ps ->
    Forall2 slot_of slots (running_offsets cur ps) ->
    err d = None ->
    (4 <= List.length (buf d))%nat ->
    in_ d = concat slots ++ tail ->
    cur + Z.of_nat (List.length (concat ps)) <= length d ->
    (offsets d = None -> offset d = cur) ->
    (offsets d <> None -> offset d <= cur) ->
    let d' := foldl (fun d f => DecodeDynamicBytes d (BlobVar f.1) f.2) d fields in
    err d' = None /\ in_ d' = tail /\
    elements (offsets d') = elements (offsets d) ++ running_offsets cur ps /\
    pend d' =
      pend d ++ map (fun f => PendDynamicBytes (BlobVar f.1) f.2) fields /\
    length d' = length d /\ lengths d' = lengths d /\
    offsetss d' = offsetss d /\ pends d' = pends d.
Proof.
  induction fields as [|f fields IH];
    intros [|p ps] slots cur d tail Hlen Hs E B I Hle Hfirst Hnext;
    try discriminate; cbv zeta.
  { simpl in *. apply Forall2_nil_inv_r in Hs as ->.
    rewrite !app_nil_r. by repeat split. }
  simpl in Hs. apply Forall2_cons_inv_r in Hs as (slot & slots' & [L4 Hu] & Hs & ->).
  simpl in I, Hle. rewrite <- app_assoc in I. rewrite length_app in Hle.
  destruct (DecodeDynamicBytes_accepts d (BlobVar f.1) f.2 slot
              (concat slots' ++ tail) E B I L4)
    as (E1 & I1 & B1 & O1 & Q1 & P1 & Len1 & Ls1 & Os1 & Ps1).
  { lia. } { intros N. rewrite Hu. by apply Hfirst. }
  { intros N. rewrite Hu. by apply Hnext. }
  simpl.
  destruct (IH ps slots' (cur + Z.of_nat (List.length p))
              (DecodeDynamicBytes d (BlobVar f.1) f.2) tail)
    as (E2 & I2 & Q2 & P2 & Len2 & Ls2 & Os2 & Ps2); try done.
  - by injection Hlen.
  - lia.
  - rewrite Len1. lia.
  - intros N. by rewrite Q1 in N.
  - intros _. rewrite O1, Hu. lia.
  - cbv zeta in *. rewrite Q2, P2, Q1, P1, Hu. simpl.
    rewrite <- !app_assoc. simpl. repeat split; try done; congruence.
Qed.

Section byte_strings.
Context {U : Type} `{!newableObject U}.
Implicit Types (s : @state U) (h : gmap loc (@value U)).

Lemma decodeDynamicBytes_var (l : loc) (cap0 : Z) s (popped : Decoder)
    (b : slice byte) (p tail : list byte) :
  err (dec s) = None ->
  retrieveSize (dec s) = Ok (Z.of_nat (List.length p), popped) ->
  Z.of_nat (List.length p) <= cap0 ->
  heap s !! l = Some (VBlob b) ->
  in_ (dec s) = p ++ tail ->
  exists d' b',
    decodeDynamicBytes (BlobVar l) cap0 s =
      Ok (State d' (<[l := VBlob b']> (heap s))) /\
    elems b' = p /\ err d' = None /\ in_ d' = tail /\ restored popped d'.
Proof.
  intros E P C Hb I. unfold decodeDynamicBytes, latched. rewrite E, P.
  cbn [bind]. destruct (cap0 <? _) eqn:C'; [lia|].
  unfold load_blob, store_blob. rewrite Hb. cbn [bind].
  destruct (expand_ok x00 b (Z.of_nat (List.length p))) as (b1 & -> & Hlen & Hcap).
  cbn [bind]. rewrite Nat2Z.id in Hlen.
  destruct (retrieveSize_popped _ _ _ P) as (o0 & rest & _ & ->).
  rewrite DecodeStaticBytes_enough;
    [|done|simpl; rewrite length_elems, I, length_app by done; lia].
  rewrite length_elems by done. simpl. rewrite Hlen, I.
  rewrite take_app_length, drop_app_length.
  eexists _, _. split; [done|]. split.
  { fold (with_elems b1 p). by apply elems_with_elems. }
  by repeat split.
Qed.

Lemma runAll_cons (run : action -> @state U -> res (@state U)) a q s :
  runAll run (a :: q) s = let* s1 := run a s in runAll run q s1.
Proof. done. Qed.

Lemma call_PendDynamicBytes (fuel : nat) blob maxSize s :
  call (S fuel) (PendDynamicBytes blob maxSize) s =
    decodeDynamicBytes blob maxSize s.
Proof. done. Qed.

Lemma drain_of_byte_strings (fuel : nat) (fields : list (loc * Z)) :
  forall (ps : list (list byte)) (cur : Z) s (tail : list byte),
    Forall2 (fun f p => is_Some (heap s !! f.1 ≫= fun v =>
                                   match v with VBlob b => Some b | _ => None end) /\
                        Z.of_nat (List.length p) <= f.2) fields ps ->
    NoDup fields.*1 ->
    err (dec s) = None ->
    elements (offsets (dec s)) = running_offsets cur ps ->
    length (dec s) = cur + Z.of_nat (List.length (concat ps)) ->
    0 <= cur ->
    length (dec s) < 2 ^ 32 ->
    in_ (dec s) = concat ps ++ tail ->
    exists s',
      runAll (call (S fuel))
        (map (fun f => PendDynamicBytes (BlobVar f.1) f.2) fields) s = Ok s' /\
      err (dec s') = None /\ in_ (dec s') = tail /\
      Forall2 (fun f p => exists b, heap s' !! f.1 = Some (VBlob b) /\ elems b = p)
        fields ps /\
      (forall l, l ∉ fields.*1 -> heap s' !! l = heap s !! l) /\
      length (dec s') = length (dec s) /\ lengths (dec s') = lengths (dec s) /\
      offsetss (dec s') = offsetss (dec s) /\ pend (dec s') = pend (dec s) /\
      pends (dec s') = pends (dec s).
Proof.
  induction fields as [|[l cap0] fields IH];
    intros ps cur s tail F N E Q Len C0 L32 I.
  { apply Forall2_nil_inv_l in F as ->. simpl in *. exists s.
    by repeat split. }
  apply Forall2_cons_inv_l in F as (p & ps' & [Hb Hcap] & F & ->).
  cbn [fst snd fmap list_fmap running_offsets concat map] in *.
  apply NoDup_cons in N as [Nl N].
  destruct (heap s !! l) as [[b| | |]|] eqn:Hl; try by destruct Hb.
  rewrite length_app in Len. rewrite <- app_assoc in I.
  assert (Eo : offsets (dec s) =
               Some (cur :: running_offsets (cur + Z.of_nat (List.length p)) ps')).
  { destruct (offsets (dec s)); simpl in Q; [by rewrite Q|done]. }
  assert (P : retrieveSize (dec s) =
              Ok (Z.of_nat (List.length p),
                  set_offsets
                    (Some (running_offsets (cur + Z.of_nat (List.length p)) ps'))
                    (dec s))).
  { rewrite (retrieveSize_cons _ _ _ Eo). do 2 f_equal.
    destruct ps' as [|p' ps']; simpl.
    - simpl in Len. rewrite u32_small; lia.
    - rewrite u32_small; lia. }
  destruct (decodeDynamicBytes_var l cap0 s _ b p (concat ps' ++ tail) E P Hcap Hl I)
    as (d1 & b1 & R & Hb1 & E1 & I1 & (Hlen1 & Hls1 & Ho1 & Hos1 & Hp1 & Hps1)).
  cbn [dec heap] in *.
  destruct (IH ps' (cur + Z.of_nat (List.length p))
              (State d1 (<[l := VBlob b1]> (heap s))) tail)
    as (s' & Run & E' & I' & F' & Hother & Hl' & Hls' & Hos' & Hp' & Hps');
    cbn [dec heap]; try done; try lia.
  - eapply Forall2_impl; [exact F|]. intros [l' c'] p' [Hb' Hc'].
    split; [|done]. simpl in *.
    destruct (decide (l = l')) as [<-|Hne].
    + by rewrite lookup_insert_eq.
    + by rewrite lookup_insert_ne.
  - by rewrite Ho1.
  - rewrite Hlen1. simpl. lia.
  - rewrite Hlen1. simpl. lia.
  - exists s'. split.
    { rewrite runAll_cons, call_PendDynamicBytes. cbn [fst snd].
      rewrite R. exact Run. }
    split; [done|]. split; [done|]. split.
    { constructor; [|done]. exists b1. split; [|done]. cbn [fst].
      rewrite (Hother l Nl). cbn [heap]. by rewrite lookup_insert_eq. }
    split.
    { intros l' Hl'0. apply not_elem_of_cons in Hl'0 as [Hne Hl'0].
      rewrite (Hother l' Hl'0). cbn [heap]. by rewrite lookup_insert_ne. }
    simpl in Hlen1, Hls1, Hos1, Hp1, Hps1.
    cbn [dec] in Hl', Hls', Hos', Hp', Hps'. repeat split; congruence.
Qed.

(** X14. A container of byte strings decodes from its canonical layout.
    Let the input be one four-byte slot per field, which [Uint32] reads as
    the running offsets of the payloads from the head size (four bytes per
    field), then the payloads, then anything; let the container length be
    the head size plus the payloads, each payload be within the cap of its
    field, and the targets be distinct byte-string variables. Then the
    decoder returns with no error, every target shows exactly its payload,
    the rest of the heap is as it was, the input is left after the
    container and the coordination state is the one from before. *)
Theorem byte_strings_decode (fuel : nat) (fields : list (loc * Z))
    (ps slots : list (list byte)) (rest : list byte) s :
  err (dec s) = None ->
  (4 <= List.length (buf (dec s)))%nat ->
  NoDup fields.*1 ->
  Forall2 (fun f p => is_Some (heap s !! f.1 ≫= fun v =>
                                 match v with VBlob b => Some b | _ => None end) /\
                      Z.of_nat (List.length p) <= f.2) fields ps ->
  Forall2 slot_of slots (running_offsets (4 * Z.of_nat (List.length fields)) ps) ->
  in_ (dec s) = concat slots ++ concat ps ++ rest ->
  length (dec s) =
    4 * Z.of_nat (List.length fields) + Z.of_nat (List.length (concat ps)) ->
  length (dec s) < 2 ^ 32 ->
  exists s',
    decodeByteStrings fuel fields s = Ok s' /\
    err (dec s') = None /\
    in_ (dec s') = rest /\
    Forall2 (fun f p => exists b, heap s' !! f.1 = Some (VBlob b) /\ elems b = p)
      fields ps /\
    (forall l, l ∉ fields.*1 -> heap s' !! l = heap s !! l) /\
    restored (dec s) (dec s').
Proof.
  intros E B N F Hs I Len L32. unfold decodeByteStrings.
  set (n := Z.of_nat (List.length fields)) in *.
  assert (Hu : u32 (4 * n) = 4 * n) by (apply u32_small; lia).
  set (d0 := OffsetDynamics (4 * n) (dec s)).
  assert (F0 : err d0 = err (dec s) /\ buf d0 = buf (dec s) /\
               in_ d0 = in_ (dec s) /\ length d0 = length (dec s) /\
               lengths d0 = lengths (dec s) /\
               offsets d0 = None /\ offset d0 = u32 (4 * n) /\ pend d0 = [] /\
               pends d0 = pends (dec s) ++ [pend (dec s)] /\
               offsetss d0 = offsetss (dec s) ++ [offsets (dec s)])
    by by repeat split.
  destruct F0 as (E0 & B0 & I0 & Len0 & Ls0 & Q0 & O0 & P0 & Ps0 & Os0).
  destruct (head_of_byte_strings fields ps slots (4 * n) d0 (concat ps ++ rest))
    as (E1 & I1 & Q1 & P1 & Len1 & Ls1 & Os1 & Ps1).
  { by apply Forall2_length in F. }
  { done. }
  { by rewrite E0. }
  { by rewrite B0. }
  { by rewrite I0. }
  { rewrite Len0. lia. }
  { intros _. by rewrite O0. }
  { intros Hn. by destruct Hn. }
  cbv zeta in *. set (d1 := foldl _ d0 fields) in *.
  rewrite Q0 in Q1. rewrite P0 in P1. cbn [elements default app] in Q1, P1.
  destruct (drain_of_byte_strings fuel fields ps (4 * n)
              (State d1 (heap s)) rest)
    as (s' & Run & E' & I' & F' & Hother & Hl' & Hls' & Hos' & Hp' & Hps');
    cbn [dec heap]; try done; try lia.
  cbn [dec heap] in *.
  unfold dynamicDone. cbn [dec heap]. rewrite P1, Run.
  cbn [bind]. rewrite Hps', Ps1, Ps0, index_top. cbn [bind].
  cbn [offsetss set_pends set_pend].
  rewrite Hos', Os1, Os0, index_top. cbn [bind].
  eexists. split; [done|]. unfold restored. simpl.
  rewrite Hps', Ps1, Ps0, Hos', Os1, Os0, !take_top.
  split; [done|]. split; [done|]. split; [done|]. split; [done|].
  repeat split; congruence.
Qed.

End byte_strings.

(** ** A slice of blobs, from the counter to the drain *)

Lemma decodeOffset_accepts counter d slot r :
  (4 <= List.length (buf d))%nat ->
  in_ d = slot ++ r ->
  List.length slot = 4%nat ->
  Uint32 slot <= length d ->
  (offsets d = None -> counter = false -> offset d = Uint32 slot) ->
  (offsets d <> None -> offset d <= Uint32 slot) ->
  decodeOffset counter d =
    (set_offsets (append (offsets d) (Uint32 slot))
       (set_offset (Uint32 slot) (set_buf (slot ++ drop 4 (buf d)) (set_in r d))),
     None).
Proof.
  intros B I L4 Hle Hfirst Hnext.
  assert (R : readBuf 4 d =
              (set_buf (slot ++ drop 4 (buf d)) (set_in r d), None)).
  { rewrite readBuf_enough; [|done|rewrite I, length_app; lia].
    rewrite I, take_app_length', drop_app_length' by done. done. }
  rewrite (decodeOffset_read _ _ _ R). cbv zeta. cbn [buf set_buf].
  rewrite take_app_length' by done.
  destruct (length d <? Uint32 slot) eqn:C1; [lia|].
  destruct (offsets d) as [l|] eqn:Eo; cbn [is_nil negb andb].
  - specialize (Hnext ltac:(done)).
    by destruct (Uint32 slot <? offset d) eqn:C3; [lia|].
  - destruct counter; [done|]. cbn [negb]. by rewrite (Hfirst eq_refl eq_refl), Z.eqb_refl.
Qed.

Lemma decodeOffset_accepts_fields counter d slot r :
  (4 <= List.length (buf d))%nat ->
  in_ d = slot ++ r ->
  List.length slot = 4%nat ->
  Uint32 slot <= length d ->
  (offsets d = None -> counter = false -> offset d = Uint32 slot) ->
  (offsets d <> None -> offset d <= Uint32 slot) ->
  exists d',
    decodeOffset counter d = (d', None) /\
    err d' = err d /\ in_ d' = r /\
    List.length (buf d') = List.length (buf d) /\
    offset d' = Uint32 slot /\
    offsets d' = Some (elements (offsets d) ++ [Uint32 slot]) /\
    pend d' = pend d /\ length d' = length d /\ lengths d' = lengths d /\
    offsetss d' = offsetss d /\ pends d' = pends d.
Proof.
  intros B I L4 Hle Hfirst Hnext.
  rewrite (decodeOffset_accepts counter d slot r B I L4 Hle Hfirst Hnext).
  eexists. split; [done|]. simpl.
  rewrite length_app, length_drop, L4. repeat split; try done. lia.
Qed.

Lemma head_of_blob_items (blobs : loc) (maxSize : Z) (indices : list nat) :
  forall (ps slots : list (list byte)) (cur : Z) (d : Decoder) (tail : list byte),
    List.length indices = List.length ps ->
    Forall2 slot_of slots (running_offsets cur ps) ->
    err d = None ->
    (4 <= List.length (buf d))%nat ->
    in_ d = concat slots ++ tail ->
    cur + Z.of_nat (List.length (concat ps)) <= length d ->
    (offsets d = None -> offset d = cur) ->
    (offsets d <> None -> offset d <= cur) ->
    let d' := foldl (fun d i => DecodeDynamicBytes d (BlobElem blobs i) maxSize)
                d indices in
    err d' = None /\ in_ d' = tail /\
    elements (offsets d') = elements (offsets d) ++ running_offsets cur ps /\
    pend d' =
      pend d ++ map (fun i => PendDynamicBytes (BlobElem blobs i) maxSize) indices /\
    length d' = length d /\ lengths d' = lengths d /\
    offsetss d' = offsetss d /\ pends d' = pends d.
Proof.
  induction indices as [|i indices IH];
    intros [|p ps] slots cur d tail Hlen Hs E B I Hle Hfirst Hnext;
    try discriminate; cbv zeta.
  { simpl in *. apply Forall2_nil_inv_r in Hs as ->.
    rewrite !app_nil_r. by repeat split. }
  simpl in Hs. apply Forall2_cons_inv_r in Hs as (slot & slots' & [L4 Hu] & Hs & ->).
  simpl in I, Hle. rewrite <- app_assoc in I. rewrite length_app in Hle.
  destruct (DecodeDynamicBytes_accepts d (BlobElem blobs i) maxSize slot
              (concat slots' ++ tail) E B I L4)
    as (E1 & I1 & B1 & O1 & Q1 & P1 & Len1 & Ls1 & Os1 & Ps1).
  { lia. } { intros N. rewrite Hu. by apply Hfirst. }
  { intros N. rewrite Hu. by apply Hnext. }
  simpl.
  destruct (IH ps slots' (cur + Z.of_nat (List.length p))
              (DecodeDynamicBytes d (BlobElem blobs i) maxSize) tail)
    as (E2 & I2 & Q2 & P2 & Len2 & Ls2 & Os2 & Ps2); try done.
  - by injection Hlen.
  - lia.
  - rewrite Len1. lia.
  - intros N. by rewrite Q1 in N.
  - intros _. rewrite O1, Hu. lia.
  - cbv zeta in *. rewrite Q2, P2, Q1, P1, Hu. simpl.
    rewrite <- !app_assoc. simpl. repeat split; try done; congruence.
Qed.

Lemma ascendFromDynamic_result {U : Type} `{!newableObject U}
    (run : action -> @state U -> res (@state U)) (s s' : @state U)
    ls n ps p os o :
  runAll run (pend (dec s)) s = Ok s' ->
  lengths (dec s') = ls ++ [n] ->
  pends (dec s') = ps ++ [p] ->
  offsetss (dec s') = os ++ [o] ->
  ascendFromDynamic run s =
    Ok (State
          (set_lengths ls
             (set_length n
                (set_offsetss os (set_offsets o (set_pends ps (set_pend p (dec s')))))))
          (heap s')).
Proof.
  intros R L P O. unfold ascendFromDynamic, dynamicDone. rewrite R. simpl.
  rewrite P, O, !index_top. simpl. rewrite L, index_top. simpl.
  by rewrite !take_top.
Qed.

Section blobs.
Context {U : Type} `{!newableObject U}.
Implicit Types (s : @state U) (h : gmap loc (@value U)).

Lemma call_PendFirstBlob (fuel : nat) blobs maxSize s bsx :
  heap s !! blobs = Some (VBlobs bsx) ->
  (0 < len bsx)%nat ->
  call (S fuel) (PendFirstBlob blobs maxSize) s =
    decodeDynamicBytes (BlobElem blobs 0) maxSize s.
Proof.
  intros H L. cbn [call]. unfold load_blobs. rewrite H. cbn [bind].
  destruct (0 <? len bsx)%nat eqn:C; [done|]. apply Nat.ltb_ge in C. lia.
Qed.

Lemma decodeDynamicBytes_elem (blobs : loc) (i : nat) (maxSize : Z) s
    (popped : Decoder) (bsx : slice (slice byte)) (b : slice byte)
    (p tail : list byte) :
  err (dec s) = None ->
  retrieveSize (dec s) = Ok (Z.of_nat (List.length p), popped) ->
  Z.of_nat (List.length p) <= maxSize ->
  heap s !! blobs = Some (VBlobs bsx) ->
  arr bsx !! i = Some b ->
  in_ (dec s) = p ++ tail ->
  exists d' b',
    decodeDynamicBytes (BlobElem blobs i) maxSize s =
      Ok (State d'
            (<[blobs := VBlobs (Slice (<[i := b']> (arr bsx)) (len bsx))]> (heap s))) /\
    elems b' = p /\ err d' = None /\ in_ d' = tail /\ restored popped d'.
Proof.
  intros E P C Hb Hi I. unfold decodeDynamicBytes, latched. rewrite E, P.
  cbn [bind]. destruct (maxSize <? _) eqn:C'; [lia|].
  unfold load_blob, store_blob. rewrite Hb. unfold index. rewrite Hi. cbn [bind].
  destruct (expand_ok x00 b (Z.of_nat (List.length p))) as (b1 & -> & Hlen & Hcap).
  cbn [bind]. rewrite Nat2Z.id in Hlen.
  destruct (retrieveSize_popped _ _ _ P) as (o0 & rest & _ & ->).
  rewrite DecodeStaticBytes_enough;
    [|done|simpl; rewrite length_elems, I, length_app by done; lia].
  rewrite length_elems by done. simpl. rewrite Hlen, I.
  rewrite take_app_length, drop_app_length.
  eexists _, _. split; [done|]. split.
  { fold (with_elems b1 p). by apply elems_with_elems. }
  by repeat split.
Qed.

Lemma drain_of_blobs (fuel : nat) (blobs : loc) (maxSize : Z) (k : nat) :
  forall (ps : list (list byte)) (acts : list action) (j : nat) (cur : Z) s
         (tail : list byte),
    Forall2 (item_closure blobs maxSize) acts (seq j (List.length ps)) ->
    Forall (fun p => Z.of_nat (List.length p) <= maxSize) ps ->
    (j + List.length ps <= k)%nat ->
    (0 < k)%nat ->
    slice_inv blobs k (heap s) ->
    err (dec s) = None ->
    elements (offsets (dec s)) = running_offsets cur ps ->
    length (dec s) = cur + Z.of_nat (List.length (concat ps)) ->
    0 <= cur ->
    length (dec s) < 2 ^ 32 ->
    in_ (dec s) = concat ps ++ tail ->
    exists s',
      runAll (call (S fuel)) acts s = Ok s' /\
      err (dec s') = None /\ in_ (dec s') = tail /\
      (exists bs0 bs1,
         heap s !! blobs = Some (VBlobs bs0) /\
         heap s' !! blobs = Some (VBlobs bs1) /\
         len bs1 = k /\ (k <= cap bs1)%nat /\
         (forall i, (i < j)%nat -> arr bs1 !! i = arr bs0 !! i) /\
         (forall i p, ps !! i = Some p ->
            exists b, arr bs1 !! (j + i)%nat = Some b /\ elems b = p)) /\
      (forall l, l <> blobs -> heap s' !! l = heap s !! l) /\
      length (dec s') = length (dec s) /\ lengths (dec s') = lengths (dec s) /\
      offsetss (dec s') = offsetss (dec s) /\ pend (dec s') = pend (dec s) /\
      pends (dec s') = pends (dec s).
Proof.
  induction ps as [|p ps IH];
    intros acts j cur s tail Fa Fp Hj Hk Hs E Q Len C0 L32 I.
  { apply Forall2_nil_inv_r in Fa as ->. exists s.
    destruct Hs as (bsx & Hb & Hl & Hc).
    split; [done|]. split; [done|]. split; [done|]. split; [|done].
    exists bsx, bsx. by repeat split. }
  cbn [List.length seq running_offsets concat] in *.
  apply Forall2_cons_inv_r in Fa as (a & acts' & Ha & Fa & ->).
  apply Forall_cons in Fp as [Hp Fp].
  destruct Hs as (bsx & Hb & Hl & Hc).
  destruct (lookup_lt_is_Some_2 (arr bsx) j) as [b Hbj].
  { unfold cap in Hc. lia. }
  rewrite length_app in Len. rewrite <- app_assoc in I.
  assert (Eo : offsets (dec s) =
               Some (cur :: running_offsets (cur + Z.of_nat (List.length p)) ps)).
  { destruct (offsets (dec s)); simpl in Q; [by rewrite Q|done]. }
  assert (P : retrieveSize (dec s) =
              Ok (Z.of_nat (List.length p),
                  set_offsets
                    (Some (running_offsets (cur + Z.of_nat (List.length p)) ps))
                    (dec s))).
  { rewrite (retrieveSize_cons _ _ _ Eo). do 2 f_equal.
    destruct ps as [|p' ps']; simpl.
    - simpl in Len. rewrite u32_small; lia.
    - rewrite u32_small; lia. }
  assert (Hcall : call (S fuel) a s =
                  decodeDynamicBytes (BlobElem blobs j) maxSize s).
  { destruct Ha as [->|[-> ->]]; [done|].
    apply (call_PendFirstBlob _ _ _ _ bsx); [done|lia]. }
  destruct (decodeDynamicBytes_elem blobs j maxSize s _ bsx b p
              (concat ps ++ tail) E P Hp Hb Hbj I)
    as (d1 & b1 & R & Hb1 & E1 & I1 & (Hlen1 & Hls1 & Ho1 & Hos1 & Hp1 & Hps1)).
  simpl in Hlen1, Hls1, Ho1, Hos1, Hp1, Hps1.
  set (h1 := <[blobs := VBlobs (Slice (<[j := b1]> (arr bsx)) (len bsx))]> (heap s))
    in *.
  destruct (IH acts' (S j) (cur + Z.of_nat (List.length p)) (State d1 h1) tail)
    as (s' & Run & E' & I' & (bs0 & bs1 & Hb0 & Hbs1 & Hl1 & Hc1 & Hlow & Hps)
        & Hother & Hl' & Hls' & Hos' & Hp' & Hps');
    cbn [dec heap]; try done; try lia.
  - exists (Slice (<[j := b1]> (arr bsx)) (len bsx)). unfold h1.
    rewrite lookup_insert_eq. split; [done|]. split; [done|].
    unfold cap in *. simpl. by rewrite length_insert.
  - by rewrite Ho1.
  - cbn [dec heap] in *. unfold h1 in Hb0. rewrite lookup_insert_eq in Hb0.
    injection Hb0 as <-. simpl in Hlow.
    exists s'. split.
    { rewrite runAll_cons, Hcall, R. exact Run. }
    split; [done|]. split; [done|]. split.
    { exists bsx, bs1. split; [done|]. split; [done|]. split; [done|].
      split; [done|]. split.
      - intros i Hi. rewrite (Hlow i) by lia.
        apply list_lookup_insert_ne. lia.
      - intros [|i] p' Hi; simpl in Hi.
        + injection Hi as <-. exists b1. split; [|done].
          rewrite Nat.add_0_r, (Hlow j) by lia.
          apply list_lookup_insert_eq. by eapply lookup_lt_Some.
        + destruct (Hps i p' Hi) as (b' & Hb' & He'). exists b'.
          split; [|done]. by rewrite <- Nat.add_succ_comm. }
    split.
    { intros l Hne. rewrite (Hother l Hne). unfold h1.
      by rewrite lookup_insert_ne. }
    repeat split; congruence.
Qed.

(** X15. A slice of blobs decodes from its canonical layout. Let the region
    hold one four-byte slot per item, which [Uint32] reads as the running
    offsets of the payloads from four times the number of items, then the
    payloads; let there be at least one item, no more than the item cap,
    each within the byte cap. Then [decodeSliceOfDynamicBytes] returns with
    no error, the slice shows exactly the payloads, in order, the rest of
    the heap is as it was, the input is left after the region and the
    enclosing container is restored. *)
Theorem blobs_decode (fuel : nat) (blobs : loc) (maxItems maxSize : Z)
    (ps slots : list (list byte)) (rest : list byte) s (popped : Decoder)
    (bs : slice (slice byte)) :
  err (dec s) = None ->
  (4 <= List.length (buf (dec s)))%nat ->
  ps <> [] ->
  retrieveSize (dec s) =
    Ok (4 * Z.of_nat (List.length ps) + Z.of_nat (List.length (concat ps)),
        popped) ->
  Forall2 slot_of slots (running_offsets (4 * Z.of_nat (List.length ps)) ps) ->
  in_ (dec s) = concat slots ++ concat ps ++ rest ->
  Z.of_nat (List.length ps) <= maxItems ->
  Forall (fun p => Z.of_nat (List.length p) <= maxSize) ps ->
  heap s !! blobs = Some (VBlobs bs) ->
  exists s' bs',
    decodeSliceOfDynamicBytes (call (S fuel)) blobs maxItems maxSize s = Ok s' /\
    err (dec s') = None /\
    in_ (dec s') = rest /\
    heap s' !! blobs = Some (VBlobs bs') /\
    Forall2 (fun b p => elems b = p) (elems bs') ps /\
    (forall l, l <> blobs -> heap s' !! l = heap s !! l) /\
    restored popped (dec s').
Proof.
  intros E B Hne P Hs I Hmax Hcaps Hbs.
  destruct ps as [|p0 ps]; [done|]. clear Hne.
  set (k := Z.of_nat (List.length (p0 :: ps))) in *.
  set (size := 4 * k + Z.of_nat (List.length (concat (p0 :: ps)))) in *.
  assert (Hk : 1 <= k) by (unfold k; simpl; lia).
  assert (S32 : 0 <= size < 2 ^ 32).
  { destruct (retrieveSize_popped _ _ _ P) as (o0 & r0 & Eo & _).
    rewrite (retrieveSize_cons _ _ _ Eo) in P. injection P as <- _.
    destruct r0; apply u32_range. }
  rewrite (decodeSliceOfDynamicBytes_region _ _ _ _ _ _ _ E P ltac:(lia)).
  destruct (retrieveSize_popped _ _ _ P) as (o0 & r0 & _ & Hpop).
  set (d0 := descendIntoDynamic size popped).
  destruct (descendIntoDynamic_fields size popped)
    as (E0 & Len0 & Ls0 & _ & Q0 & Os0 & P0 & Ps0 & I0 & B0).
  fold d0 in E0, Len0, Ls0, Q0, Os0, P0, Ps0, I0, B0.
  assert (Epop : err popped = None /\ in_ popped = in_ (dec s) /\
                 buf popped = buf (dec s)) by (by rewrite Hpop).
  destruct Epop as (Epop & Ipop & Bpop).
  rewrite Epop in E0. rewrite Ipop in I0. rewrite Bpop in B0.
  cbn [running_offsets] in Hs.
  apply Forall2_cons_inv_r in Hs as (slot0 & slots' & [L4 Hu] & Hs & ->).
  cbn [concat] in I. rewrite <- app_assoc in I.
  destruct (decodeOffset_accepts_fields true d0 slot0
              (concat slots' ++ concat (p0 :: ps) ++ rest))
    as (counted & Hacc & Ec & Ic & Bc & Oc & Qc & Pc & Lenc & Lsc & Osc & Psc).
  { by rewrite B0. } { by rewrite I0. } { done. }
  { rewrite Hu, Len0. lia. } { done. } { by intros []. }
  rewrite E0 in Ec. rewrite B0 in Bc. rewrite Hu in Oc. rewrite Q0, Hu in Qc.
  rewrite P0 in Pc. rewrite Len0 in Lenc. rewrite Ls0 in Lsc.
  rewrite Os0 in Osc. rewrite Ps0 in Psc. cbn [elements default app] in Qc.
  unfold decodeCounterAndQueue. cbn [dec heap]. rewrite Hacc, Oc.
  replace ((4 * k) mod 4) with 0 by (rewrite Z.mul_comm, Z.mod_mul; lia).
  rewrite Z.shiftr_div_pow2 by lia. change (2 ^ 2) with 4.
  replace (4 * k / 4) with k by (rewrite Z.mul_comm, Z.div_mul; lia).
  cbn [bind negb Z.eqb]. destruct (maxItems <? k) eqn:C; [lia|].
  unfold load_blobs. rewrite Hbs. cbn [bind].
  destruct (expand_ok (Slice [] 0) bs k) as (bs1 & -> & Hlen & Hcap).
  cbn [bind].
  assert (Hn : Z.to_nat k = S (List.length ps)) by (unfold k; simpl; lia).
  rewrite Hn in *. replace (S (List.length ps) - 1)%nat with (List.length ps) by lia.
  rewrite Pc. cbn [app].
  set (d3 := set_pend [PendFirstBlob blobs maxSize] counted).
  destruct (head_of_blob_items blobs maxSize (seq 1 (List.length ps)) ps slots'
              (4 * k + Z.of_nat (List.length p0)) d3 (concat (p0 :: ps) ++ rest))
    as (E4 & I4 & Q4 & P4 & Len4 & Ls4 & Os4 & Ps4).
  { by rewrite length_seq. }
  { done. }
  { exact Ec. }
  { change (buf d3) with (buf counted). by rewrite Bc. }
  { exact Ic. }
  { change (length d3) with (length counted). rewrite Lenc. unfold size.
    cbn [concat]. rewrite length_app. lia. }
  { change (offsets d3) with (offsets counted). by rewrite Qc. }
  { intros _. change (offset d3) with (offset counted). rewrite Oc. lia. }
  cbv zeta in *. set (d4 := foldl _ d3 _) in *.
  change (offsets d3) with (offsets counted) in Q4.
  change (pend d3) with [PendFirstBlob blobs maxSize] in P4.
  change (length d3) with (length counted) in Len4.
  change (lengths d3) with (lengths counted) in Ls4.
  change (offsetss d3) with (offsetss counted) in Os4.
  change (pends d3) with (pends counted) in Ps4.
  rewrite Qc in Q4. cbn [elements default app] in Q4, P4.
  set (h1 := <[blobs := VBlobs bs1]> (heap s)).
  assert (Fa : Forall2 (item_closure blobs maxSize) (pend d4)
                 (seq 0 (List.length (p0 :: ps)))).
  { rewrite P4. cbn [List.length seq]. constructor; [by right|].
    apply Forall2_fmap_l, Forall_Forall2_diag, Forall_forall.
    intros i _. by left. }
  assert (Hinv : slice_inv blobs (S (List.length ps)) h1).
  { exists bs1. unfold h1. rewrite lookup_insert_eq.
    split; [done|]. split; [done|]. by rewrite <- Hlen. }
  destruct (drain_of_blobs fuel blobs maxSize (S (List.length ps)) (p0 :: ps)
              (pend d4) 0 (4 * k) (State d4 h1) rest Fa Hcaps
              ltac:(cbn [List.length]; lia) ltac:(lia) Hinv E4 Q4
              ltac:(cbn [dec]; rewrite Len4, Lenc; done) ltac:(lia)
              ltac:(cbn [dec]; rewrite Len4, Lenc; lia) I4)
    as (s' & Run & E' & I' & (bs0 & bs1' & _ & Hbs1 & Hl1 & Hc1 & _ & Hps)
        & Hother & Hl' & Hls' & Hos' & Hp' & Hps').
  cbn [dec heap] in *.
  rewrite (ascendFromDynamic_result (call (S fuel)) (State d4 h1) s'
             (lengths popped) (length popped) (pends popped) (pend popped)
             (offsetss popped) (offsets popped)); try done.
  2: { rewrite Hls', Ls4. done. }
  2: { rewrite Hps', Ps4. done. }
  2: { rewrite Hos', Os4. done. }
  eexists _, bs1'. split; [done|]. cbn [dec heap]. simpl.
  split; [done|]. split; [done|]. split; [done|]. split.
  { apply Forall2_same_length_lookup_2.
    - unfold elems. rewrite length_take. unfold cap in Hc1. cbn [List.length]. lia.
    - intros i x y Hx Hy. destruct (Hps i y Hy) as (b & Hb & He).
      unfold elems in Hx. rewrite lookup_take_lt in Hx.
      + simpl in Hb. congruence.
      + apply lookup_lt_Some in Hy. cbn [List.length] in Hy. lia. }
  split.
  { intros l Hne. rewrite (Hother l Hne). unfold h1. by rewrite lookup_insert_ne. }
  by repeat split.
Qed.

End blobs.

(** ** These statements on concrete messages *)

Lemma DecodeStaticBytes_exact_or_short_witness :
  err (fresh [x61; x62; x63] 3) = None /\
  (DecodeStaticBytes (fresh [x61; x62; x63] 3) [x00; x00]).2 = [x61; x62] /\
  (DecodeStaticBytes (fresh [x61] 1) [x00; x00]).2 = [x61; x00].
Proof.
  split; [evaluate|]. split.
  - rewrite (proj1 (DecodeStaticBytes_exact_or_short (fresh [x61; x62; x63] 3)
                      [x00; x00] ltac:(evaluate))); [evaluate|simpl; lia].
  - rewrite (proj2 (DecodeStaticBytes_exact_or_short (fresh [x61] 1)
                      [x00; x00] ltac:(evaluate))); [evaluate|simpl; lia].
Defined.

Lemma DecodeUint64_little_endian_witness :
  err (fresh [x01; x02; x00; x00; x00; x00; x00; x00] 8) = None /\
  (DecodeUint64 (fresh [x01; x02; x00; x00; x00; x00; x00; x00] 8) 0).2 = 513.
Proof.
  split; [evaluate|].
  destruct (DecodeUint64_little_endian
              (fresh [x01; x02; x00; x00; x00; x00; x00; x00] 8) 0
              ltac:(evaluate) ltac:(simpl; lia)) as [A _].
  destruct (A ltac:(simpl; lia)) as (V & _). rewrite V. evaluate.
Defined.

Lemma DecodeUint256_limbs_witness :
  err (fresh (replicate 32 x01) 32) = None /\
  (DecodeUint256 (fresh (replicate 32 x01) 32) None).2 =
    Some [72340172838076673; 72340172838076673;
          72340172838076673; 72340172838076673].
Proof.
  split; [evaluate|].
  destruct (DecodeUint256_limbs (fresh (replicate 32 x01) 32) None
              ltac:(evaluate) ltac:(simpl; lia) ltac:(simpl; lia)) as (V & _).
  rewrite V. evaluate.
Defined.

Lemma DecodeArrayOfStaticBytes_chunks_witness :
  err (fresh [x61; x62; x63; x64; x65] 5) = None /\
  exists d' bytes',
    DecodeArrayOfStaticBytes (fresh [x61; x62; x63; x64; x65] 5)
      [[x00; x00]; [x00; x00]] = (d', bytes') /\
    concat bytes' = [x61; x62; x63; x64] /\ in_ d' = [x65].
Proof.
  split; [evaluate|].
  destruct (DecodeArrayOfStaticBytes_chunks (fresh [x61; x62; x63; x64; x65] 5)
              [[x00; x00]; [x00; x00]] ltac:(evaluate) ltac:(simpl; lia))
    as (d' & bytes' & R & _ & I & C & _).
  exists d', bytes'. split; [exact R|]. split; [exact C|exact I].
Defined.

Lemma Withdrawal_DecodeSSZ_reads_SizeSSZ_witness :
  err (fresh (replicate 45 x01) 45) = None /\
  exists w' d',
    DecodeSSZ (@new Withdrawal _) (fresh (replicate 45 x01) 45) = Ok (w', d') /\
    in_ d' = [x01] /\ Amount w' = 72340172838076673.
Proof.
  split; [evaluate|].
  destruct (Withdrawal_DecodeSSZ_reads_SizeSSZ (@new Withdrawal _)
              (fresh (replicate 45 x01) 45)
              ltac:(evaluate) ltac:(simpl; lia) ltac:(evaluate) ltac:(simpl; lia))
    as (w' & d' & R & _ & I & _ & _ & _ & _ & A).
  exists w', d'. split; [exact R|]. split.
  - rewrite I. evaluate.
  - rewrite A. evaluate.
Defined.

Lemma offset_declaration_outcomes_witness :
  err (two_slots x08 x0a) = None /\
  queued_or_latched (two_slots x08 x0a) (PendDynamicBytes (BlobVar 1%positive) 16)
    (DecodeDynamicBytes (two_slots x08 x0a) (BlobVar 1%positive) 16).
Proof.
  split; [evaluate|].
  destruct (@offset_declaration_outcomes Withdrawal _ (two_slots x08 x0a)
              ltac:(evaluate) ltac:(simpl; lia)) as (A & _).
  exact (A (BlobVar 1%positive) 16).
Defined.

Lemma decodeDynamicBytes_fills_target_witness :
  err (dec (one_blob [x61; x62])) = None /\
  exists s' b',
    decodeDynamicBytes (BlobVar 1%positive) 16 (one_blob [x61; x62]) = Ok s' /\
    load_blob (BlobVar 1%positive) (heap s') = Ok b' /\
    elems b' = [x61; x62] /\ cap b' = 3%nat.
Proof.
  split; [evaluate|].
  destruct (decodeDynamicBytes_fills_target (one_blob [x61; x62]) 2
              (set_offsets (Some []) (dec (one_blob [x61; x62])))
              (BlobVar 1%positive) 16 (Slice [x7a; x7a; x7a] 3)
              ltac:(evaluate) ltac:(evaluate) ltac:(lia) ltac:(evaluate))
    as (s' & b' & R & L & _ & Keep & _ & Fill).
  exists s', b'. split; [exact R|]. split; [exact L|]. split.
  - destruct (Fill ltac:(simpl; lia)) as (El & _). rewrite El. evaluate.
  - destruct (Keep ltac:(vm_compute; discriminate)) as (C & _). rewrite C.
    evaluate.
Defined.

Lemma decodeSliceOfStaticBytes_items_witness :
  err (dec (slice_of_pairs [x61; x62; x63; x64])) = None /\
  exists s' bs',
    decodeSliceOfStaticBytes 1%positive 2 16
      (slice_of_pairs [x61; x62; x63; x64]) = Ok s' /\
    heap s' !! 1%positive = Some (VStaticBytes bs') /\
    Z.of_nat (len bs') = 2 /\
    concat (elems bs') = [x61; x62; x63; x64].
Proof.
  split; [evaluate|].
  destruct (decodeSliceOfStaticBytes_items (slice_of_pairs [x61; x62; x63; x64])
              4 (set_offsets (Some []) (dec (slice_of_pairs [x61; x62; x63; x64])))
              1%positive 2 16 (Slice [] 0)
              ltac:(evaluate) ltac:(evaluate) ltac:(lia) ltac:(lia)
              ltac:(evaluate) ltac:(vm_compute; discriminate) ltac:(evaluate)
              ltac:(constructor) ltac:(simpl; lia))
    as (s' & bs' & R & H & L & _ & C & _).
  exists s', bs'. split; [exact R|]. split; [exact H|]. split.
  - rewrite L. evaluate.
  - rewrite C. evaluate.
Defined.

Lemma Withdrawal_DecodeSSZ_total (w : Withdrawal) (d : Decoder) :
  exists w' d', DecodeSSZ w d = Ok (w', d').
Proof.
  unfold DecodeSSZ, Withdrawal_object.
  destruct (DecodeUint64 d (Index w)) as [d1 i].
  destruct (DecodeUint64 d1 (Validator w)) as [d2 v].
  destruct (DecodeStaticBytes d2 (Address w)) as [d3 a].
  destruct (DecodeUint64 d3 (Amount w)) as [d4 m]. by eexists _, _.
Qed.

Lemma decodeSliceOfStaticObjects_items_witness :
  err (dec (slice_of_withdrawals (replicate 88 x01))) = None /\
  exists s' os',
    decodeSliceOfStaticObjects 1%positive 16
      (slice_of_withdrawals (replicate 88 x01)) = Ok s' /\
    heap s' !! 1%positive = Some (VObjects os') /\
    len os' = 2%nat /\ Forall is_Some (elems os').
Proof.
  split; [evaluate|].
  destruct (decodeSliceOfStaticObjects_items
              (slice_of_withdrawals (replicate 88 x01)) 88
              (set_offsets (Some []) (dec (slice_of_withdrawals (replicate 88 x01))))
              1%positive 16 (Slice [] 0)
              Withdrawal_DecodeSSZ_total
              ltac:(evaluate) ltac:(evaluate) ltac:(lia)
              ltac:(vm_compute; discriminate) ltac:(evaluate)
              ltac:(vm_compute; discriminate) ltac:(evaluate))
    as (s' & os' & R & H & L & F).
  exists s', os'. split; [exact R|]. split; [exact H|]. split; [|exact F].
  rewrite L. evaluate.
Defined.

Lemma indivisible_region_witness :
  err (dec (slice_of_pairs [x61; x62; x63])) = None /\
  exists s',
    decodeSliceOfStaticBytes 1%positive 2 16 (slice_of_pairs [x61; x62; x63]) =
      Ok s' /\
    fails_with (err (dec s')) ErrDynamicStaticsIndivisible.
Proof.
  split; [evaluate|].
  destruct (indivisible_region (slice_of_pairs [x61; x62; x63]) 3
              (set_offsets (Some []) (dec (slice_of_pairs [x61; x62; x63])))
              ltac:(evaluate) ltac:(evaluate) ltac:(lia)) as (A & _).
  eexists. split.
  - apply (A 1%positive 2 16); [lia|vm_compute; discriminate].
  - simpl. by eexists.
Defined.

Lemma zero_counter_offset_always_panics_witness :
  err (dec (slice_of_blobs [x00; x00; x00; x00])) = None /\
  decodeSliceOfDynamicBytes (call 1) 1%positive 16 16
    (slice_of_blobs [x00; x00; x00; x00]) = Panic IndexOutOfRange.
Proof.
  split; [evaluate|].
  set (s := slice_of_blobs [x00; x00; x00; x00]).
  set (popped := set_offsets (Some []) (dec s)).
  apply (zero_counter_offset_always_panics s 4 popped
           (decodeOffset true (descendIntoDynamic 4 popped)).1 0
           1%positive 16 16 (Slice [] 0)
           ltac:(evaluate) ltac:(evaluate) ltac:(lia) ltac:(evaluate)
           ltac:(evaluate) ltac:(lia) ltac:(evaluate)).
Defined.

Lemma decodeSliceOfDynamicBytes_restores_witness :
  err (dec (slice_of_blobs [x04; x00; x00; x00; x61; x62; x63; x64])) = None /\
  exists s' size popped,
    decodeSliceOfDynamicBytes (call 1) 1%positive 16 16
      (slice_of_blobs [x04; x00; x00; x00; x61; x62; x63; x64]) = Ok s' /\
    retrieveSize (dec (slice_of_blobs [x04; x00; x00; x00; x61; x62; x63; x64])) =
      Ok (size, popped) /\
    restored popped (dec s').
Proof.
  split; [evaluate|].
  set (s := slice_of_blobs [x04; x00; x00; x00; x61; x62; x63; x64]).
  assert (R : exists s', decodeSliceOfDynamicBytes (call 1) 1%positive 16 16 s
                         = Ok s') by (eexists; evaluate).
  destruct R as [s' R].
  destruct (decodeSliceOfDynamicBytes_restores s s' 0 1%positive 16 16
              ltac:(evaluate) R) as (size & popped & P & Hres & _).
  exists s', size, popped. split; [exact R|]. split; [exact P|exact Hres].
Defined.

Lemma byte_strings_decode_witness :
  err (dec two_strings) = None /\
  exists s',
    decodeByteStrings 0 [(1%positive, 16); (2%positive, 16)] two_strings = Ok s' /\
    in_ (dec s') = [xff] /\
    Forall2 (fun f p => exists b, heap s' !! f.1 = Some (VBlob b) /\ elems b = p)
      [(1%positive, 16); (2%positive, 16)] [[x61; x62]; [x63]].
Proof.
  split; [evaluate|].
  destruct (byte_strings_decode 0 [(1%positive, 16); (2%positive, 16)]
              [[x61; x62]; [x63]]
              [[x08; x00; x00; x00]; [x0a; x00; x00; x00]] [xff] two_strings)
    as (s' & R & _ & I & F & _).
  - evaluate.
  - simpl. lia.
  - apply NoDup_cons. split; [|apply NoDup_singleton].
    intros H%list_elem_of_singleton. discriminate.
  - repeat constructor; (by eexists) || (simpl; lia).
  - repeat constructor; evaluate.
  - evaluate.
  - evaluate.
  - simpl. lia.
  - exists s'. split; [exact R|]. split; [exact I|exact F].
Defined.


Lemma blobs_decode_witness :
  err (dec (slice_of_blobs
              [x08; x00; x00; x00; x0a; x00; x00; x00; x61; x62; x63])) = None /\
  exists s' bs',
    decodeSliceOfDynamicBytes (call 1) 1%positive 16 16
      (slice_of_blobs [x08; x00; x00; x00; x0a; x00; x00; x00; x61; x62; x63]) =
      Ok s' /\
    heap s' !! 1%positive = Some (VBlobs bs') /\
    Forall2 (fun b p => elems b = p) (elems bs') [[x61; x62]; [x63]].
Proof.
  split; [evaluate|].
  set (s := slice_of_blobs [x08; x00; x00; x00; x0a; x00; x00; x00; x61; x62; x63]).
  destruct (blobs_decode 0 1%positive 16 16 [[x61; x62]; [x63]]
              [[x08; x00; x00; x00]; [x0a; x00; x00; x00]] [] s
              (set_offsets (Some []) (dec s)) (Slice [] 0))
    as (s' & bs' & R & _ & _ & H & F & _).
  - evaluate.
  - simpl. lia.
  - discriminate.
  - evaluate.
  - repeat constructor; evaluate.
  - evaluate.
  - simpl. lia.
  - repeat constructor; simpl; lia.
  - evaluate.
  - exists s', bs'. split; [exact R|]. split; [exact H|exact F].
Defined.

(** ** A slice of withdrawals *)

Lemma length_withdrawals_of n c : List.length (withdrawals_of n c) = n.
Proof. revert c. induction n as [|n IH]; intros c; simpl; [done|]. by rewrite IH. Qed.

Lemma decodeObjects_withdrawals (objects : list (option Withdrawal)) :
  forall d : Decoder,
    err d = None ->
    (8 <= List.length (buf d))%nat ->
    Forall (fun o => forall w, o = Some w -> List.length (Address w) = 20%nat)
      objects ->
    (44 * List.length objects <= List.length (in_ d))%nat ->
    exists d',
      decodeObjects d objects =
        Ok (d', withdrawals_of (List.length objects) (in_ d)) /\
      err d' = None /\
      in_ d' = drop (44 * List.length objects) (in_ d) /\
      same_coordination d d'.
Proof.
  induction objects as [|o rest IH]; intros d E B F I.
  { exists d. simpl. rewrite drop_0. by repeat split. }
  apply Forall_cons in F as [Ho F]. cbn [List.length] in I.
  assert (A : List.length (Address (default new o)) = 20%nat).
  { destruct o as [w|]; [by apply Ho|done]. }
  destruct (Withdrawal_DecodeSSZ_enough (default new o) d E B A ltac:(lia))
    as (d1 & R & E1 & I1 & B1 & S1).
  destruct (IH d1 E1 ltac:(lia) F) as (d' & R' & E' & I' & S').
  { rewrite I1, length_drop. lia. }
  exists d'. cbn [decodeObjects List.length withdrawals_of].
  rewrite R. cbn [bind]. rewrite R'. cbn [bind]. rewrite I1.
  split; [done|]. split; [done|]. split.
  { rewrite I', I1, drop_drop. f_equal. lia. }
  unfold same_coordination in *.
  destruct S1 as (? & ? & ? & ? & ? & ? & ? & ?).
  destruct S' as (? & ? & ? & ? & ? & ? & ? & ?).
  repeat split; congruence.
Qed.

(** X16. A slice of withdrawals decodes item by item. On a region of [44 n]
    bytes, [n] positive and within the item cap, with the region's bytes in
    the input, [decodeSliceOfStaticObjects] returns with no error, the
    slice shows [n] non-nil withdrawals, the i-th decoded from the i-th
    group of 44 bytes, and the input advances past the region. *)
Theorem withdrawals_decode (s : @state Withdrawal) (n : nat) (popped : Decoder)
    (objects : loc) (maxItems : Z) (os : slice (option Withdrawal)) :
  err (dec s) = None ->
  (8 <= List.length (buf (dec s)))%nat ->
  (0 < n)%nat ->
  retrieveSize (dec s) = Ok (44 * Z.of_nat n, popped) ->
  Z.of_nat n <= maxItems ->
  heap s !! objects = Some (VObjects os) ->
  Forall (fun o => forall w, o = Some w -> List.length (Address w) = 20%nat)
    (arr os) ->
  (44 * n <= List.length (in_ (dec s)))%nat ->
  exists s' os',
    decodeSliceOfStaticObjects objects maxItems s = Ok s' /\
    heap s' !! objects = Some (VObjects os') /\
    elems os' = withdrawals_of n (in_ (dec s)) /\
    in_ (dec s') = drop (44 * n) (in_ (dec s)) /\
    err (dec s') = None.
Proof.
  intros E B Hn P Hmax Hb Farr Hin.
  unfold decodeSliceOfStaticObjects, latched. rewrite E, P. cbn [bind].
  destruct (44 * Z.of_nat n =? 0) eqn:C0; [lia|].
  change (@SizeSSZ Withdrawal _) with 44. change (44 =? 0) with false.
  replace (44 * Z.of_nat n mod 44) with 0 by (rewrite Z.mul_comm, Z.mod_mul; lia).
  replace (44 * Z.of_nat n / 44) with (Z.of_nat n)
    by (rewrite Z.mul_comm, Z.div_mul; lia).
  cbn [negb Z.eqb]. destruct (maxItems <? Z.of_nat n) eqn:C2; [lia|].
  unfold load_objects. rewrite Hb. cbn [bind].
  destruct (expand_cases (@None Withdrawal) os (Z.of_nat n))
    as (os1 & -> & Hlen & Hcap & Hnew & Hold).
  cbn [bind]. rewrite Nat2Z.id in Hlen, Hnew.
  destruct (retrieveSize_popped _ _ _ P) as (o0 & rest & _ & ->).
  assert (F1 : Forall (fun o => forall w, o = Some w ->
                                 List.length (Address w) = 20%nat) (elems os1)).
  { unfold elems. apply Forall_take.
    destruct (Z.lt_ge_cases (u32 (Z.of_nat (cap os))) (Z.of_nat n)) as [Hc|Hc].
    - rewrite (Hnew Hc). by apply Forall_replicate.
    - by rewrite (Hold Hc). }
  assert (Le : List.length (elems os1) = n) by (rewrite length_elems; done).
  destruct (decodeObjects_withdrawals (elems os1)
              (set_offsets (Some rest) (dec s)) E B F1)
    as (d' & R & E' & I' & _).
  { rewrite Le. simpl. lia. }
  rewrite R. cbn [bind]. rewrite Le in *. simpl in I'.
  eexists _, _. split; [done|]. cbn [dec heap]. rewrite lookup_insert_eq.
  split; [done|]. split; [|done].
  apply elems_with_elems. rewrite Hlen. apply length_withdrawals_of.
Qed.

Lemma withdrawals_decode_witness :
  err (dec (slice_of_withdrawals (replicate 88 x01))) = None /\
  exists s' os',
    decodeSliceOfStaticObjects 1%positive 16
      (slice_of_withdrawals (replicate 88 x01)) = Ok s' /\
    heap s' !! 1%positive = Some (VObjects os') /\
    elems os' =
      [Some (Withdrawal_of (replicate 44 x01)); Some (Withdrawal_of (replicate 44 x01))] /\
    in_ (dec s') = [].
Proof.
  split; [evaluate|].
  destruct (withdrawals_decode (slice_of_withdrawals (replicate 88 x01)) 2
              (set_offsets (Some [])
                 (dec (slice_of_withdrawals (replicate 88 x01))))
              1%positive 16 (Slice [] 0))
    as (s' & os' & R & H & El & I & _).
  - evaluate.
  - simpl. lia.
  - lia.
  - evaluate.
  - lia.
  - evaluate.
  - constructor.
  - simpl. lia.
  - exists s', os'. split; [exact R|]. split; [exact H|]. split.
    + rewrite El. evaluate.
    + rewrite I. evaluate.
Defined.

